(** * Receipt splitter front end: quality gate, interview loop, results view
      and storage schema

    A shallow embedding of

    - [frontend/src/app/page.tsx]: [isReceiptTooPoor] and the [Home]
      component with its handlers;
    - [frontend/src/components/ReviewStep.tsx]: [handleSubmit];
    - [frontend/src/components/ResultsStep.tsx]: the validation row;
    - [frontend/src/lib/api.ts]: the wire types (imported by the
      components as [@/lib/types]);
    - the SQL schema: the [receipts] and [assignments] tables.

    Conventions.  A JavaScript string is modelled by a Rocq [string] whose
    characters are its code units; the model covers the strings whose code
    units are below 256 (Latin-1).  A JavaScript [number] is a binary64
    [float], except array lengths and the attempt counter, which are natural
    numbers.  React state is a record; a handler is a function that applies
    its [set...] calls in program order (React applies a handler's updates
    together, so only the last value of each field is observable). *)

From Stdlib Require Import String Ascii List Bool Arith ZArith QArith Lia.
From Stdlib Require Import DecimalString Floats.
Import ListNotations.

Close Scope Q_scope.
Local Open Scope string_scope.
Local Open Scope list_scope.
Local Open Scope nat_scope.

(* ================================================================== *)
(** ** JavaScript built-ins used by the sources *)
(* ================================================================== *)

Module JS.

(** [number]: IEEE 754 binary64. *)
Definition number : Type := float.

(** Line feed, the character written [\n] in the sources. *)
Definition LF : string := String "010"%char EmptyString.

(** U+2019 RIGHT SINGLE QUOTATION MARK occurs in one message constant
    only; the constant is never inspected, and is written here in UTF-8. *)
Definition RSQUO : string :=
  String "226"%char (String "128"%char (String "153"%char EmptyString)).

(** [String.prototype.toLowerCase] on Latin-1 code units: A-Z and
    U+00C0-U+00DE (except the multiplication sign U+00D7) move up by 32;
    every other code unit below 256 is its own lower case. *)
Definition toLowerChar (c : ascii) : ascii :=
  let n := nat_of_ascii c in
  if ((65 <=? n) && (n <=? 90))
     || ((192 <=? n) && (n <=? 222) && negb (n =? 215))
  then ascii_of_nat (n + 32)
  else c.

Fixpoint toLowerCase (s : string) : string :=
  match s with
  | EmptyString => EmptyString
  | String c s' => String (toLowerChar c) (toLowerCase s')
  end.

(** [String.prototype.includes]: does [needle] occur in [s]? *)
Fixpoint includes (s needle : string) : bool :=
  if String.prefix needle s then true
  else match s with
       | EmptyString => false
       | String _ s' => includes s' needle
       end.

(** [Array.prototype.join] on an array of strings. *)
Definition join (sep : string) (xs : list string) : string :=
  String.concat sep xs.

(** WhiteSpace and LineTerminator code units below 256: TAB, LF, VT, FF,
    CR, SP and NBSP. *)
Definition isWhiteSpace (c : ascii) : bool :=
  let n := nat_of_ascii c in
  ((9 <=? n) && (n <=? 13)) || (n =? 32) || (n =? 160).

Fixpoint trimStart (s : string) : string :=
  match s with
  | EmptyString => EmptyString
  | String c s' => if isWhiteSpace c then trimStart s' else s
  end.

Fixpoint trimEnd (s : string) : string :=
  match s with
  | EmptyString => EmptyString
  | String c s' =>
      match trimEnd s' with
      | EmptyString => if isWhiteSpace c then EmptyString
                       else String c EmptyString
      | t => String c t
      end
  end.

(** [String.prototype.trim]. *)
Definition trim (s : string) : string := trimEnd (trimStart s).

(** Truthiness of a string: the empty string is the only falsy one. *)
Definition truthy (s : string) : bool :=
  match s with EmptyString => false | _ => true end.

(** A natural number in a template literal: its decimal digits. *)
Definition show_nat (n : nat) : string :=
  NilZero.string_of_uint (Nat.to_uint n).

Fixpoint all_chars (p : ascii -> bool) (s : string) : bool :=
  match s with
  | EmptyString => true
  | String c s' => p c && all_chars p s'
  end.

(** *** [Number.parseFloat]

    Leading white space is skipped; then the longest prefix that is a
    decimal literal (sign, [Infinity] or digits with an optional fraction
    and an optional exponent) is read, and [NaN] results when there is
    none.  The decimal value [m * 10^e10] is rounded to the nearest
    binary64 (ties to even) by the reference operations of [SpecFloat]. *)
Definition isDigit (c : ascii) : bool :=
  let n := nat_of_ascii c in (48 <=? n) && (n <=? 57).

Definition digitValue (c : ascii) : Z := Z.of_nat (nat_of_ascii c - 48).

(** The run of digits at the head of [s], accumulated onto [acc]; how many
    there were; and the rest of [s]. *)
Fixpoint readDigits (s : string) (acc : Z) (count : nat)
  : Z * nat * string :=
  match s with
  | String c s' =>
      if isDigit c
      then readDigits s' (10 * acc + digitValue c)%Z (S count)
      else (acc, count, s)
  | EmptyString => (acc, count, s)
  end.

Definition readSign (s : string) : bool * string :=
  match s with
  | String "-"%char s' => (true, s')
  | String "+"%char s' => (false, s')
  | _ => (false, s)
  end.

(** An exponent part counts only when at least one digit follows. *)
Definition readExponent (s : string) : Z :=
  match s with
  | String c s' =>
      if (nat_of_ascii c =? 101) || (nat_of_ascii c =? 69) then
        let (neg, s'') := readSign s' in
        let '(v, n, _) := readDigits s'' 0%Z 0 in
        if n =? 0 then 0%Z else if neg then (- v)%Z else v
      else 0%Z
  | EmptyString => 0%Z
  end.

Definition decimalToNumber (neg : bool) (m e10 : Z) : number :=
  match m with
  | Zpos p =>
      if (0 <=? e10)%Z then
        let n := (Zpos p * 10 ^ e10)%Z in
        SF2Prim (binary_normalize prec emax (if neg then (- n)%Z else n)
                                  0%Z false)
      else
        SF2Prim (SFdiv prec emax
                   (S754_finite neg p 0%Z)
                   (S754_finite false (Z.to_pos (10 ^ (- e10))) 0%Z))
  | _ => if neg then neg_zero else zero
  end.

Definition parseFloat (s : string) : number :=
  let (neg, s1) := readSign (trimStart s) in
  if String.prefix "Infinity" s1
  then (if neg then neg_infinity else infinity)
  else
    let '(m1, n1, s2) := readDigits s1 0%Z 0 in
    let '(m, n2, s3) :=
      match s2 with
      | String "."%char s2' => readDigits s2' m1 0
      | _ => (m1, 0, s2)
      end in
    if n1 + n2 =? 0 then nan
    else decimalToNumber neg m (readExponent s3 - Z.of_nat n2)%Z.

(** The outcome of awaiting a promise: the value it resolved to, or the
    value it rejected with (the [catch] clauses only ask whether that is
    an [Error] and, if so, for its [message]). *)
Inductive thrown : Type :=
| ErrorObject (message : string)
| NotAnError.

Inductive awaited (A : Type) : Type :=
| resolved (value : A)
| rejected (err : thrown).
Arguments resolved {A} value.
Arguments rejected {A} err.

End JS.

(* ================================================================== *)
(** ** Wire types ([lib/api.ts])

    [uploadReceipt] and [submitInterview] are the two requests; what the
    page sees of them is what their promise settles to ([JS.awaited]):
    the parsed response, or the [Error] they throw on a failed request. *)
(* ================================================================== *)

Module ItemConfidence.
Record t : Type := mk
  { name : option JS.number;
    quantity : option JS.number;
    unit_price : option JS.number }.
End ItemConfidence.

Module Item.
Record t : Type := mk
  { name : string;
    price : string;       (* Decimal comes as string from JSON *)
    quantity : string;
    confidence : option ItemConfidence.t }.
End Item.

Module Totals.
Record t : Type := mk
  { subtotal : string;
    tax_total : string;
    tip_total : string;
    fees_total : string;
    grand_total : string }.
End Totals.

Module AssignmentShare.
Record t : Type := mk
  { participant : string;
    fraction : string }.
End AssignmentShare.

Module ItemAssignment.
Record t : Type := mk
  { item_index : JS.number;
    shares : list AssignmentShare.t }.
End ItemAssignment.

(** [details] of an audit event is an untyped record no code reads; it is
    left out. *)
Module AuditEvent.
Record t : Type := mk
  { timestamp : string;
    node : string;
    message : string }.
End AuditEvent.

Module ItemCost.
Record t : Type := mk
  { item_index : JS.number;
    item_name : string;
    item_price : JS.number;
    quantity : JS.number;
    share_percentage : JS.number;   (* 0-100 *)
    cost : JS.number }.
End ItemCost.

Module ParticipantCost.
Record t : Type := mk
  { participant : string;
    item_costs : list ItemCost.t;
    subtotal : string;
    tax_share : string;
    tip_share : string;
    fees_share : string;
    total_owed : string }.
End ParticipantCost.

Module ReceiptState.
Record t : Type := mk
  { thread_id : string;
    image_path : option string;
    items : list Item.t;
    participants : list string;
    assignments : list ItemAssignment.t;
    totals : option Totals.t;
    confidence : option (list (string * JS.number));
    audit_log : list AuditEvent.t;
    current_node : option string;
    pending_questions : list string;
    final_costs : option (list ParticipantCost.t) }.
End ReceiptState.

Module UploadResponse.
Record t : Type := mk
  { thread_id : string;
    state : ReceiptState.t }.
End UploadResponse.

Module InterviewResponse.
Record t : Type := mk
  { thread_id : string;
    state : ReceiptState.t }.
End InterviewResponse.

(** Which step of the UI flow the user is on. *)
Inductive AppStep : Type := upload | review | results.

(* ================================================================== *)
(** ** The quality gate ([isReceiptTooPoor], page.tsx) *)
(* ================================================================== *)

Module Gate.

(** The test of case 1 on one message. *)
Definition vision_failed (q : string) : bool :=
  JS.includes (JS.toLowerCase q) "vision model failed".

(** The filter predicate of case 2. *)
Definition mentions_confidence (q : string) : bool :=
  JS.includes (JS.toLowerCase q) "confidence".

Definition flagCount (state : ReceiptState.t) : nat :=
  length (filter mentions_confidence (ReceiptState.pending_questions state)).

Definition totalFields (state : ReceiptState.t) : nat :=
  length (ReceiptState.items state) * 3.

(** The quotient [flagCount / totalFields] is taken in the rationals.
    Both operands are array lengths (below 2^32), binary64 division is
    correctly rounded and 0.5 is a binary64 value whose neighbours lie
    2^-54 away, while a quotient of such integers that is not at least
    1/2 is at least 1/(2 * totalFields) below it: the comparison with 0.5
    has the same outcome on the rounded quotient as on the exact one. *)
Definition ratio (num den : nat) : Q :=
  (inject_Z (Z.of_nat num) / inject_Z (Z.of_nat den))%Q.

Definition isReceiptTooPoor (state : ReceiptState.t) : bool :=
  let pending_questions := ReceiptState.pending_questions state in
  (* Case 1: vision model outright failed *)
  if (length pending_questions =? 1)
     && vision_failed (nth 0 pending_questions "")
  then true
  (* Case 2: too many low-confidence field flags *)
  else if length (ReceiptState.items state) =? 0 then true
  else
    let totalFields := length (ReceiptState.items state) * 3 in
    let flagCount := length (filter mentions_confidence pending_questions) in
    (0 <? totalFields) && Qle_bool (1 # 2)%Q (ratio flagCount totalFields).

(** *** The gate as the specification words it

    [evaluate(items, pendingQuestions) -> Accept | Reject(reason)], three
    rules in order, first match wins.  What a diagnostic message
    "indicates" is taken from the code ([vision_failed],
    [mentions_confidence]). *)
Inductive GateResult : Type :=
| Accept
| Reject (reason : string).

Definition hard_failure (pendingQuestions : list string) : bool :=
  match pendingQuestions with
  | [q] => vision_failed q
  | _ => false
  end.

Definition evaluate (items : list Item.t) (pendingQuestions : list string)
  : GateResult :=
  let totalFields := length items * 3 in
  let flagCount := length (filter mentions_confidence pendingQuestions) in
  if hard_failure pendingQuestions then Reject "extraction failed"
  else if length items =? 0 then Reject "no items found"
  else if (0 <? totalFields) && Qle_bool (1 # 2)%Q (ratio flagCount totalFields)
  then Reject "too many low-confidence fields"
  else Accept.

Definition rejects (r : GateResult) : bool :=
  match r with Accept => false | Reject _ => true end.

End Gate.


(* ================================================================== *)
(** ** Step 2: the submit button ([ReviewStep.tsx]) *)
(* ================================================================== *)

Module ReviewStep.

(** [handleSubmit], with [text] the content of the textarea.  The callback
    [onSubmit] acts on whatever the parent owns, here any type [S]. *)
Definition handleSubmit {S : Type} (onSubmit : string -> S -> S)
  (text : string) : S -> S :=
  let trimmed := JS.trim text in
  if negb (JS.truthy trimmed) then fun s => s
  else onSubmit trimmed.

(** [disabled={loading || !text.trim()}] on "Split the Bill". *)
Definition submitDisabled (loading : bool) (text : string) : bool :=
  loading || negb (JS.truthy (JS.trim text)).

(** [disabled={loading}] on "Upload Different Receipt". *)
Definition cancelDisabled (loading : bool) : bool := loading.

End ReviewStep.

(* ================================================================== *)
(** ** The page component ([Home], page.tsx) *)
(* ================================================================== *)

Module Page.

Definition MAX_INTERVIEW_ATTEMPTS : nat := 3.

(** The six [useState] cells of [Home]. *)
Record Home : Type := mkHome
  { step : AppStep;
    loading : bool;
    error : option string;
    state : option ReceiptState.t;
    clarification : option string;
    attempts : nat }.

(** The initial values given to [useState]. *)
Definition initial : Home :=
  {| step := upload; loading := false; error := None; state := None;
     clarification := None; attempts := 0 |}.

Definition setStep (v : AppStep) (h : Home) : Home :=
  {| step := v; loading := loading h; error := error h; state := state h;
     clarification := clarification h; attempts := attempts h |}.

Definition setLoading (v : bool) (h : Home) : Home :=
  {| step := step h; loading := v; error := error h; state := state h;
     clarification := clarification h; attempts := attempts h |}.

Definition setError (v : option string) (h : Home) : Home :=
  {| step := step h; loading := loading h; error := v; state := state h;
     clarification := clarification h; attempts := attempts h |}.

Definition setState (v : option ReceiptState.t) (h : Home) : Home :=
  {| step := step h; loading := loading h; error := error h; state := v;
     clarification := clarification h; attempts := attempts h |}.

Definition setClarification (v : option string) (h : Home) : Home :=
  {| step := step h; loading := loading h; error := error h; state := state h;
     clarification := v; attempts := attempts h |}.

Definition setAttempts (v : nat) (h : Home) : Home :=
  {| step := step h; loading := loading h; error := error h; state := state h;
     clarification := clarification h; attempts := v |}.

(** Statements of a handler body, run in program order. *)
Definition andThen (f g : Home -> Home) : Home -> Home := fun h => g (f h).
Notation "f ;; g" := (andThen f g) (at level 91, right associativity).

Definition POOR_RECEIPT : string :=
  ("The receipt image wasn" ++ JS.RSQUO
   ++ "t clear enough to extract items reliably. "
   ++ "Please upload a higher-quality photo.")%string.

Definition NOT_ENOUGH_INFORMATION : string :=
  "Not enough information was provided to split the bill accurately. Please try again.".

Definition SOMETHING_WENT_WRONG : string :=
  "Something went wrong computing the split. Please try describing the assignments again.".

(** *** [handleUpload]

    The part before [await uploadReceipt(file)] ... *)
Definition handleUpload_call : Home -> Home :=
  setLoading true ;;
  setError None.

(** ... and the part after it, [res] being what the promise settled to.
    The [finally] block runs on every path. *)
Definition handleUpload_resume (res : JS.awaited UploadResponse.t)
  : Home -> Home :=
  match res with
  | JS.resolved res =>
      let s := UploadResponse.state res in
      if Gate.isReceiptTooPoor s then
        setError (Some POOR_RECEIPT) ;;
        setLoading false ;;
        (* return: stay on step 1 *)
        setLoading false
      else
        setState (Some s) ;;
        setStep review ;;
        setLoading false
  | JS.rejected err =>
      let msg := match err with
                 | JS.ErrorObject message => message
                 | JS.NotAnError => "Upload failed"
                 end in
      setError (Some msg) ;;
      setLoading false
  end.

(** *** [handleFailedAttempt]

    [attempts] is the value the callback closed over ([useCallback] with
    dependency [attempts]), not a read of the current cell. *)
Definition handleFailedAttempt (attempts : nat) (message : string)
  : Home -> Home :=
  let nextAttempt := attempts + 1 in
  setAttempts nextAttempt ;;
  if MAX_INTERVIEW_ATTEMPTS <=? nextAttempt then
    setStep upload ;;
    setError (Some NOT_ENOUGH_INFORMATION) ;;
    setState None ;;
    setClarification None ;;
    setAttempts 0
  else
    setClarification
      (Some (message ++ JS.LF ++ JS.LF
             ++ "(Attempt " ++ JS.show_nat nextAttempt
             ++ " of " ++ JS.show_nat MAX_INTERVIEW_ATTEMPTS ++ ")")%string).

(** *** [handleInterview]

    What a call does before it reaches [await submitInterview(...)]:
    nothing at all when the closed-over [state] is null. *)
Definition handleInterview_call (state : option ReceiptState.t)
  : Home -> Home :=
  match state with
  | None => fun h => h
  | Some _ =>
      setLoading true ;;
      setClarification None
  end.

(** [s.final_costs && s.final_costs.length > 0] *)
Definition has_final_costs (s : ReceiptState.t) : bool :=
  match ReceiptState.final_costs s with
  | Some costs => 0 <? length costs
  | None => false
  end.

(** The part after the [await]; [attempts] is the closed-over counter of
    the [handleFailedAttempt] this [handleInterview] was created with. *)
Definition handleInterview_resume (attempts : nat)
  (res : JS.awaited InterviewResponse.t) : Home -> Home :=
  match res with
  | JS.resolved res =>
      let s := InterviewResponse.state res in
      setState (Some s) ;;
      (if 0 <? length (ReceiptState.pending_questions s) then
         handleFailedAttempt attempts
           (JS.join (JS.LF ++ JS.LF) (ReceiptState.pending_questions s))
       else if has_final_costs s then
         setStep results
       else
         handleFailedAttempt attempts SOMETHING_WENT_WRONG) ;;
      setLoading false
  | JS.rejected err =>
      let msg := match err with
                 | JS.ErrorObject message => message
                 | JS.NotAnError => "Submission failed"
                 end in
      handleFailedAttempt attempts
        ("Error: " ++ msg ++ ". Please try again.")%string ;;
      setLoading false
  end.

(** *** [handleStartOver] *)
Definition handleStartOver : Home -> Home :=
  setStep upload ;;
  setLoading false ;;
  setError None ;;
  setState None ;;
  setClarification None ;;
  setAttempts 0.

(** *** What [Home] renders

    Which of the child components is on screen; the conditions are those
    of the JSX, in its order. *)
Definition rendersSpinner (h : Home) : bool :=
  loading h && match step h with upload => true | _ => false end.

Definition rendersUploadStep (h : Home) : bool :=
  match step h with upload => negb (loading h) | _ => false end.

Definition rendersReviewStep (h : Home) : bool :=
  match step h, state h with
  | review, Some _ => true
  | _, _ => false
  end.

Definition rendersResultsStep (h : Home) : bool :=
  match step h, state h with
  | results, Some s =>
      match ReceiptState.final_costs s with Some _ => true | None => false end
  | _, _ => false
  end.

(** *** The page as a transition system

    A request in flight is the suspended rest of an async handler together
    with what that handler closed over. *)
Inductive suspended : Type :=
| inUpload
| inInterview (threadId text : string) (attempts : nat).

Record Config : Type := mkConfig
  { home : Home;
    inFlight : list suspended }.

Definition start : Config := {| home := initial; inFlight := [] |}.

Inductive settled : Type :=
| uploadSettled (res : JS.awaited UploadResponse.t)
| interviewSettled (res : JS.awaited InterviewResponse.t).

(** What can happen to the page: the user operates a control that is on
    screen and enabled, or the [i]-th request in flight settles. *)
Inductive event : Type :=
| pickFile
| clickSubmit (text : string)
| clickCancel
| clickStartOver
| settle (i : nat) (r : settled).

Fixpoint remove_nth {A : Type} (i : nat) (xs : list A) : list A :=
  match i, xs with
  | _, [] => []
  | 0, _ :: xs' => xs'
  | S i', x :: xs' => x :: remove_nth i' xs'
  end.

(** [onSubmit={handleInterview}]: the handler of the current render, which
    closed over that render's [state] and [attempts]. *)
Definition onSubmit (text : string) (c : Config) : Config :=
  match state (home c) with
  | None => c
  | Some s =>
      {| home := handleInterview_call (state (home c)) (home c);
         inFlight := inFlight c
                     ++ [inInterview (ReceiptState.thread_id s) text
                                     (attempts (home c))] |}
  end.

Definition dispatch (e : event) (c : Config) : option Config :=
  let h := home c in
  match e with
  | pickFile =>
      if rendersUploadStep h then
        Some {| home := handleUpload_call h;
                inFlight := inFlight c ++ [inUpload] |}
      else None
  | clickSubmit text =>
      if rendersReviewStep h
         && negb (ReviewStep.submitDisabled (loading h) text)
      then Some (ReviewStep.handleSubmit onSubmit text c)
      else None
  | clickCancel =>
      if rendersReviewStep h && negb (ReviewStep.cancelDisabled (loading h))
      then Some {| home := handleStartOver h; inFlight := inFlight c |}
      else None
  | clickStartOver =>
      if rendersResultsStep h
      then Some {| home := handleStartOver h; inFlight := inFlight c |}
      else None
  | settle i r =>
      match nth_error (inFlight c) i, r with
      | Some inUpload, uploadSettled res =>
          Some {| home := handleUpload_resume res h;
                  inFlight := remove_nth i (inFlight c) |}
      | Some (inInterview _ _ attempts), interviewSettled res =>
          Some {| home := handleInterview_resume attempts res h;
                  inFlight := remove_nth i (inFlight c) |}
      | _, _ => None
      end
  end.

Fixpoint run (es : list event) (c : Config) : option Config :=
  match es with
  | [] => Some c
  | e :: es' =>
      match dispatch e c with
      | Some c' => run es' c'
      | None => None
      end
  end.

(** The configurations the page can be in. *)
Definition reachable (c : Config) : Prop :=
  exists es, run es start = Some c.

(** An interview round fails when it is handed to [handleFailedAttempt]:
    questions came back, the request threw, or neither questions nor costs
    came back.  [failure_message] is the argument of that call. *)
Definition round_failed (res : JS.awaited InterviewResponse.t) : bool :=
  match res with
  | JS.resolved res =>
      let s := InterviewResponse.state res in
      (0 <? length (ReceiptState.pending_questions s))
      || negb (has_final_costs s)
  | JS.rejected _ => true
  end.

Definition failure_message (res : JS.awaited InterviewResponse.t) : string :=
  match res with
  | JS.resolved res =>
      let s := InterviewResponse.state res in
      if 0 <? length (ReceiptState.pending_questions s)
      then JS.join (JS.LF ++ JS.LF) (ReceiptState.pending_questions s)
      else SOMETHING_WENT_WRONG
  | JS.rejected (JS.ErrorObject message) =>
      ("Error: " ++ message ++ ". Please try again.")%string
  | JS.rejected JS.NotAnError =>
      "Error: Submission failed. Please try again."
  end.

(** The [state] cell once a response has been taken in: replaced when the
    request resolved, untouched when it threw. *)
Definition received (res : JS.awaited InterviewResponse.t) (h : Home) : Home :=
  match res with
  | JS.resolved r => setState (Some (InterviewResponse.state r)) h
  | JS.rejected _ => h
  end.

(** Where the page stands once the attempt budget is used up. *)
Definition exhausted : Home :=
  {| step := upload; loading := false;
     error := Some NOT_ENOUGH_INFORMATION; state := None;
     clarification := None; attempts := 0 |}.

(** One interview round that fails: the text is submitted and the request
    settles with [res]. *)
Definition failedRound (text : string) (res : JS.awaited InterviewResponse.t)
  : list event :=
  [clickSubmit text; settle 0 (interviewSettled res)].

(** What holds of every configuration the page can be in: at most one
    request is in flight, [loading] says whether one is, the suspended
    handler closed over the current counter, and each phase carries the
    data its screen needs. *)
Definition consistent (c : Config) : Prop :=
  let h := home c in
  match inFlight c with
  | [] =>
      loading h = false
      /\ match step h with
         | upload => state h = None /\ attempts h = 0
         | review => state h <> None /\ attempts h < MAX_INTERVIEW_ATTEMPTS
         | results => exists s, state h = Some s /\ has_final_costs s = true
         end
  | [inUpload] =>
      loading h = true /\ step h = upload /\ state h = None /\ attempts h = 0
  | [inInterview threadId _ a] =>
      loading h = true /\ step h = review
      /\ a = attempts h /\ a < MAX_INTERVIEW_ATTEMPTS
      /\ exists s, state h = Some s /\ ReceiptState.thread_id s = threadId
  | _ => False
  end.

End Page.


(* ================================================================== *)
(** ** Step 3: per-person results ([ResultsStep.tsx]) *)
(* ================================================================== *)

Module ResultsStep.

Local Open Scope float_scope.

(** [$(v)] shows [Number.parseFloat(String(v)).toFixed(2)] after a dollar
    sign.  The view keeps the number that is formatted: for a string
    argument its [parseFloat], for a number argument the number itself
    (the text of a number parses back to it).  The [toFixed] text is not
    modelled. *)
Inductive shown : Type :=
| ofString (v : string)
| ofNumber (v : JS.number).

Definition dollars (v : shown) : JS.number :=
  match v with
  | ofString s => JS.parseFloat s
  | ofNumber n => n
  end.

(** [pct === 100 ? "full" : `${Math.round(pct)}%`]; the percentage is kept
    as it is handed to [Math.round]. *)
Inductive shareLabel : Type :=
| full
| percent (pct : JS.number).

Record itemRow : Type := mkItemRow
  { row_key : JS.number;
    row_item : string;
    row_share : shareLabel;
    row_cost : JS.number }.

(** One card per person; the tip and fees lines appear only when their
    amount parses to something above zero. *)
Record card : Type := mkCard
  { card_key : string;
    card_participant : string;
    card_header_total : JS.number;
    card_rows : list itemRow;
    card_subtotal : JS.number;
    card_tax_share : JS.number;
    card_tip_share : option JS.number;
    card_fees_share : option JS.number;
    card_total : JS.number }.

(** The last line of the validation row. *)
Inductive verdict : Type :=
| TotalsMatch
| TotalsDiffer (by_ : JS.number).

Record view : Type := mkView
  { cards : list card;
    sumOfAllShares : JS.number;
    receiptTotal : option JS.number;
    validation : option verdict;
    startOverButton : bool }.

(** The literal [0.06] of the source: the binary64 nearest to 6/100. *)
Definition literal_0_06 : JS.number := 0x1.eb851eb851eb8p-5.

Definition grandTotal (costs : list ParticipantCost.t) : JS.number :=
  fold_left
    (fun sum c => sum + JS.parseFloat (ParticipantCost.total_owed c))
    costs 0.

Definition renderRow (it : ItemCost.t) : itemRow :=
  let pct := ItemCost.share_percentage it in
  {| row_key := ItemCost.item_index it;
     row_item := ItemCost.item_name it;
     row_share := if pct =? 100 then full else percent pct;
     row_cost := dollars (ofNumber (ItemCost.cost it)) |}.

Definition renderCard (person : ParticipantCost.t) : card :=
  {| card_key := ParticipantCost.participant person;
     card_participant := ParticipantCost.participant person;
     card_header_total := dollars (ofString (ParticipantCost.total_owed person));
     card_rows := map renderRow (ParticipantCost.item_costs person);
     card_subtotal := dollars (ofString (ParticipantCost.subtotal person));
     card_tax_share := dollars (ofString (ParticipantCost.tax_share person));
     card_tip_share :=
       if 0 <? JS.parseFloat (ParticipantCost.tip_share person)
       then Some (dollars (ofString (ParticipantCost.tip_share person)))
       else None;
     card_fees_share :=
       if 0 <? JS.parseFloat (ParticipantCost.fees_share person)
       then Some (dollars (ofString (ParticipantCost.fees_share person)))
       else None;
     card_total := dollars (ofString (ParticipantCost.total_owed person)) |}.

(** The difference the validation row tests and, when too large, shows. *)
Definition discrepancy (costs : list ParticipantCost.t) (totals : Totals.t)
  : JS.number :=
  abs (grandTotal costs - JS.parseFloat (Totals.grand_total totals)).

Definition ResultsStep (costs : list ParticipantCost.t)
  (totals : option Totals.t) : view :=
  let grandTotal := grandTotal costs in
  {| cards := map renderCard costs;
     sumOfAllShares := dollars (ofNumber grandTotal);
     receiptTotal :=
       match totals with
       | Some totals => Some (dollars (ofString (Totals.grand_total totals)))
       | None => None
       end;
     validation :=
       match totals with
       | Some totals =>
           if abs (grandTotal - JS.parseFloat (Totals.grand_total totals))
              <? literal_0_06
           then Some TotalsMatch
           else Some (TotalsDiffer
                        (dollars
                           (ofNumber
                              (abs (grandTotal
                                    - JS.parseFloat
                                        (Totals.grand_total totals))))))
       | None => None
       end;
     startOverButton := true |}.

(** *** The reconciliation rule as the specification words it

    "[Σ_p total_owed(p) == grand_total ± 0.06]", the tolerance taken
    inclusively: a difference of at most 0.06 is a match. *)
Definition within_tolerance_inclusive (costs : list ParticipantCost.t)
  (totals : Totals.t) : bool :=
  discrepancy costs totals <=? literal_0_06.

End ResultsStep.


(* ================================================================== *)
(** ** The normalized schema (SQL)

    The four domain tables with their column constraints, and the
    statements that write to them.  A [NUMERIC(p,s)] value is the integer
    count of its units of [10^-s] (hundredths for money, [10^-5] for
    fractions), as the column stores it after the value offered has been
    brought to the column's scale.  The values are numbers: the special
    value NaN, which a [NUMERIC] column also accepts, is outside the
    model.  [audit_logs] has no constraint beyond its keys and is left
    out. *)
(* ================================================================== *)

Module Schema.

Local Open Scope Z_scope.

(** What a statement offers for a column: nothing (the column is absent
    from the column list, or [DEFAULT] is written), [NULL], or a value. *)
Inductive offered (A : Type) : Type :=
| DEFAULT
| NULL
| VALUE (a : A).
Arguments DEFAULT {A}.
Arguments NULL {A}.
Arguments VALUE {A} a.

Inductive sql_error : Type :=
| not_null_violation (column : string)
| check_violation (constraint : string)
| unique_violation (constraint : string)
| foreign_key_violation (constraint : string)
| numeric_value_out_of_range (column : string).

Definition result (A : Type) : Type := (sql_error + A)%type.

Definition bind {A B : Type} (r : result A) (k : A -> result B) : result B :=
  match r with
  | inl e => inl e
  | inr a => k a
  end.

Notation "x <- r ; k" := (bind r (fun x => k))
  (at level 100, r at next level, right associativity).
Notation "r ;;; k" := (bind r (fun _ => k))
  (at level 100, right associativity).

(** The value a column receives, [None] being SQL's NULL. *)
Definition resolve {A : Type} (default : option A) (v : offered A)
  : option A :=
  match v with
  | DEFAULT => default
  | NULL => None
  | VALUE a => Some a
  end.

Definition NOT_NULL {A : Type} (column : string) (v : option A) : result A :=
  match v with
  | Some a => inr a
  | None => inl (not_null_violation column)
  end.

(** [NUMERIC(p,s)]: at most [p] digits in all, that is [|n| < 10^p] for
    the stored integer [n]. *)
Definition NUMERIC (p : Z) (column : string) (n : Z) : result Z :=
  if Z.abs n <? 10 ^ p then inr n
  else inl (numeric_value_out_of_range column).

Definition CHECK (constraint : string) (holds : bool) : result unit :=
  if holds then inr tt else inl (check_violation constraint).

Definition UNIQUE (constraint : string) (taken : bool) : result unit :=
  if taken then inl (unique_violation constraint) else inr tt.

Definition REFERENCES (constraint : string) (found : bool) : result unit :=
  if found then inr tt else inl (foreign_key_violation constraint).

Definition uuid : Type := Z.

(** What the server supplies to one statement. *)
Record env : Type := mkEnv
  { NOW : Z;
    gen_random_uuid : uuid }.

Module receipts.
Record row : Type := mkRow
  { id : string;       (* use thread_id *)
    subtotal : Z;
    tax_total : Z;
    tip_total : Z;
    fees_total : Z;
    grand_total : Z;
    created_at : Z }.
Record values : Type := mkValues
  { v_id : offered string;
    v_subtotal : offered Z;
    v_tax_total : offered Z;
    v_tip_total : offered Z;
    v_fees_total : offered Z;
    v_grand_total : offered Z;
    v_created_at : offered Z }.
End receipts.

Module participants.
Record row : Type := mkRow
  { id : uuid;
    receipt_id : string;
    name : string;
    created_at : Z }.
Record values : Type := mkValues
  { v_id : offered uuid;
    v_receipt_id : offered string;
    v_name : offered string;
    v_created_at : offered Z }.
End participants.

Module receipt_items.
Record row : Type := mkRow
  { id : uuid;
    receipt_id : string;
    name : string;
    quantity : Z;               (* NUMERIC(10,3) *)
    unit_price : Z;
    line_total : Z;
    confidence : option string; (* JSONB, nullable *)
    created_at : Z }.
Record values : Type := mkValues
  { v_id : offered uuid;
    v_receipt_id : offered string;
    v_name : offered string;
    v_quantity : offered Z;
    v_unit_price : offered Z;
    v_line_total : offered Z;
    v_confidence : offered string;
    v_created_at : offered Z }.
End receipt_items.

Module assignments.
Record row : Type := mkRow
  { item_id : uuid;
    participant_id : uuid;
    fraction : Z }.             (* NUMERIC(6,5): units of 10^-5 *)
Record values : Type := mkValues
  { v_item_id : offered uuid;
    v_participant_id : offered uuid;
    v_fraction : offered Z }.
End assignments.

Record database : Type := mkDatabase
  { t_receipts : list receipts.row;
    t_participants : list participants.row;
    t_receipt_items : list receipt_items.row;
    t_assignments : list assignments.row }.

(** The tables right after the script has run. *)
Definition created : database :=
  {| t_receipts := []; t_participants := []; t_receipt_items := [];
     t_assignments := [] |}.

(** *** Row constraints of [receipts] *)
Definition receipts_constraints (r : receipts.row) : result unit :=
  CHECK "receipts_subtotal_check" (receipts.subtotal r >=? 0) ;;;
  CHECK "receipts_tax_total_check" (receipts.tax_total r >=? 0) ;;;
  CHECK "receipts_tip_total_check" (receipts.tip_total r >=? 0) ;;;
  CHECK "receipts_fees_total_check" (receipts.fees_total r >=? 0) ;;;
  CHECK "receipts_grand_total_check" (receipts.grand_total r >=? 0) ;;;
  (* Ensure grand_total matches the sum of components *)
  CHECK "receipts_total_consistency"
        (receipts.grand_total r
         =? receipts.subtotal r + receipts.tax_total r
            + receipts.tip_total r + receipts.fees_total r).

(** *** Row constraint of [assignments]: [fraction >= 0 AND fraction <= 1] *)
Definition assignments_constraints (r : assignments.row) : result unit :=
  CHECK "assignments_fraction_check"
        ((assignments.fraction r >=? 0) && (assignments.fraction r <=? 100000)).

Definition has_receipt (d : database) (id : string) : bool :=
  existsb (fun r => String.eqb (receipts.id r) id) (t_receipts d).

Definition has_participant (d : database) (id : uuid) : bool :=
  existsb (fun r => participants.id r =? id) (t_participants d).

Definition has_item (d : database) (id : uuid) : bool :=
  existsb (fun r => receipt_items.id r =? id) (t_receipt_items d).

(** *** [INSERT INTO receipts] *)
Definition insert_receipts (e : env) (v : receipts.values) (d : database)
  : result database :=
  id <- NOT_NULL "id" (resolve None (receipts.v_id v)) ;
  subtotal <- NOT_NULL "subtotal" (resolve None (receipts.v_subtotal v)) ;
  subtotal <- NUMERIC 12 "subtotal" subtotal ;
  tax_total <- NOT_NULL "tax_total" (resolve (Some 0) (receipts.v_tax_total v)) ;
  tax_total <- NUMERIC 12 "tax_total" tax_total ;
  tip_total <- NOT_NULL "tip_total" (resolve (Some 0) (receipts.v_tip_total v)) ;
  tip_total <- NUMERIC 12 "tip_total" tip_total ;
  fees_total <- NOT_NULL "fees_total" (resolve (Some 0) (receipts.v_fees_total v)) ;
  fees_total <- NUMERIC 12 "fees_total" fees_total ;
  grand_total <- NOT_NULL "grand_total" (resolve None (receipts.v_grand_total v)) ;
  grand_total <- NUMERIC 12 "grand_total" grand_total ;
  created_at <- NOT_NULL "created_at"
                  (resolve (Some (NOW e)) (receipts.v_created_at v)) ;
  let r := receipts.mkRow id subtotal tax_total tip_total fees_total
                          grand_total created_at in
  receipts_constraints r ;;;
  UNIQUE "receipts_pkey" (has_receipt d id) ;;;
  inr {| t_receipts := t_receipts d ++ [r];
         t_participants := t_participants d;
         t_receipt_items := t_receipt_items d;
         t_assignments := t_assignments d |}.

(** *** [INSERT INTO participants] *)
Definition insert_participants (e : env) (v : participants.values)
  (d : database) : result database :=
  id <- NOT_NULL "id"
          (resolve (Some (gen_random_uuid e)) (participants.v_id v)) ;
  receipt_id <- NOT_NULL "receipt_id"
                  (resolve None (participants.v_receipt_id v)) ;
  name <- NOT_NULL "name" (resolve None (participants.v_name v)) ;
  created_at <- NOT_NULL "created_at"
                  (resolve (Some (NOW e)) (participants.v_created_at v)) ;
  UNIQUE "participants_pkey" (has_participant d id) ;;;
  UNIQUE "participants_unique_per_receipt"
         (existsb (fun r => String.eqb (participants.receipt_id r) receipt_id
                            && String.eqb (participants.name r) name)
                  (t_participants d)) ;;;
  REFERENCES "participants_receipt_id_fkey" (has_receipt d receipt_id) ;;;
  inr {| t_receipts := t_receipts d;
         t_participants :=
           t_participants d
           ++ [participants.mkRow id receipt_id name created_at];
         t_receipt_items := t_receipt_items d;
         t_assignments := t_assignments d |}.

(** *** [INSERT INTO receipt_items] *)
Definition insert_receipt_items (e : env) (v : receipt_items.values)
  (d : database) : result database :=
  id <- NOT_NULL "id"
          (resolve (Some (gen_random_uuid e)) (receipt_items.v_id v)) ;
  receipt_id <- NOT_NULL "receipt_id"
                  (resolve None (receipt_items.v_receipt_id v)) ;
  name <- NOT_NULL "name" (resolve None (receipt_items.v_name v)) ;
  quantity <- NOT_NULL "quantity" (resolve None (receipt_items.v_quantity v)) ;
  quantity <- NUMERIC 10 "quantity" quantity ;
  unit_price <- NOT_NULL "unit_price"
                  (resolve None (receipt_items.v_unit_price v)) ;
  unit_price <- NUMERIC 12 "unit_price" unit_price ;
  line_total <- NOT_NULL "line_total"
                  (resolve None (receipt_items.v_line_total v)) ;
  line_total <- NUMERIC 12 "line_total" line_total ;
  created_at <- NOT_NULL "created_at"
                  (resolve (Some (NOW e)) (receipt_items.v_created_at v)) ;
  CHECK "receipt_items_quantity_check" (quantity >? 0) ;;;
  CHECK "receipt_items_unit_price_check" (unit_price >=? 0) ;;;
  CHECK "receipt_items_line_total_check" (line_total >=? 0) ;;;
  UNIQUE "receipt_items_pkey" (has_item d id) ;;;
  REFERENCES "receipt_items_receipt_id_fkey" (has_receipt d receipt_id) ;;;
  inr {| t_receipts := t_receipts d;
         t_participants := t_participants d;
         t_receipt_items :=
           t_receipt_items d
           ++ [receipt_items.mkRow id receipt_id name quantity unit_price
                 line_total (resolve None (receipt_items.v_confidence v))
                 created_at];
         t_assignments := t_assignments d |}.

(** *** [INSERT INTO assignments] *)
Definition insert_assignments (v : assignments.values) (d : database)
  : result database :=
  item_id <- NOT_NULL "item_id" (resolve None (assignments.v_item_id v)) ;
  participant_id <- NOT_NULL "participant_id"
                      (resolve None (assignments.v_participant_id v)) ;
  fraction <- NOT_NULL "fraction" (resolve None (assignments.v_fraction v)) ;
  fraction <- NUMERIC 6 "fraction" fraction ;
  let r := assignments.mkRow item_id participant_id fraction in
  assignments_constraints r ;;;
  UNIQUE "assignments_pkey"
         (existsb (fun r => (assignments.item_id r =? item_id)
                            && (assignments.participant_id r =? participant_id))
                  (t_assignments d)) ;;;
  REFERENCES "assignments_item_id_fkey" (has_item d item_id) ;;;
  REFERENCES "assignments_participant_id_fkey"
             (has_participant d participant_id) ;;;
  inr {| t_receipts := t_receipts d;
         t_participants := t_participants d;
         t_receipt_items := t_receipt_items d;
         t_assignments := t_assignments d ++ [r] |}.

(** *** [UPDATE receipts SET <money columns> WHERE id = ...]

    A column absent from the [SET] list keeps its value. *)
Definition assign (column : string) (p : Z) (default : option Z)
  (old : Z) (set : option (offered Z)) : result Z :=
  match set with
  | None => inr old
  | Some v => n <- NOT_NULL column (resolve default v) ; NUMERIC p column n
  end.

Record receipts_set : Type := mkReceiptsSet
  { set_subtotal : option (offered Z);
    set_tax_total : option (offered Z);
    set_tip_total : option (offered Z);
    set_fees_total : option (offered Z);
    set_grand_total : option (offered Z) }.

Definition update_receipts_row (s : receipts_set) (r : receipts.row)
  : result receipts.row :=
  subtotal <- assign "subtotal" 12 None (receipts.subtotal r) (set_subtotal s) ;
  tax_total <- assign "tax_total" 12 (Some 0) (receipts.tax_total r)
                 (set_tax_total s) ;
  tip_total <- assign "tip_total" 12 (Some 0) (receipts.tip_total r)
                 (set_tip_total s) ;
  fees_total <- assign "fees_total" 12 (Some 0) (receipts.fees_total r)
                  (set_fees_total s) ;
  grand_total <- assign "grand_total" 12 None (receipts.grand_total r)
                   (set_grand_total s) ;
  let r' := receipts.mkRow (receipts.id r) subtotal tax_total tip_total
                           fees_total grand_total (receipts.created_at r) in
  receipts_constraints r' ;;;
  inr r'.

(** Rows are rewritten one by one; the first violation aborts the
    statement. *)
Fixpoint update_where {R : Type} (cond : R -> bool) (f : R -> result R)
  (rows : list R) : result (list R) :=
  match rows with
  | [] => inr []
  | r :: rest =>
      r' <- (if cond r then f r else inr r) ;
      rest' <- update_where cond f rest ;
      inr (r' :: rest')
  end.

Definition update_receipts (id : string) (s : receipts_set) (d : database)
  : result database :=
  rows <- update_where (fun r => String.eqb (receipts.id r) id)
            (update_receipts_row s) (t_receipts d) ;
  inr {| t_receipts := rows;
         t_participants := t_participants d;
         t_receipt_items := t_receipt_items d;
         t_assignments := t_assignments d |}.

(** *** [UPDATE assignments SET fraction = ... WHERE item_id = ... AND
        participant_id = ...] *)
Definition update_assignments_row (v : offered Z) (r : assignments.row)
  : result assignments.row :=
  fraction <- assign "fraction" 6 None (assignments.fraction r) (Some v) ;
  let r' := assignments.mkRow (assignments.item_id r)
                              (assignments.participant_id r) fraction in
  assignments_constraints r' ;;;
  inr r'.

Definition update_assignments (item_id participant_id : uuid)
  (v : offered Z) (d : database) : result database :=
  rows <- update_where
            (fun r => (assignments.item_id r =? item_id)
                      && (assignments.participant_id r =? participant_id))
            (update_assignments_row v) (t_assignments d) ;
  inr {| t_receipts := t_receipts d;
         t_participants := t_participants d;
         t_receipt_items := t_receipt_items d;
         t_assignments := rows |}.

(** *** [DELETE FROM receipts WHERE id = ...], with [ON DELETE CASCADE]
        through participants and items down to assignments *)
Definition delete_receipts (id : string) (d : database) : database :=
  let keep_p := filter (fun r => negb (String.eqb (participants.receipt_id r) id))
                       (t_participants d) in
  let keep_i := filter (fun r => negb (String.eqb (receipt_items.receipt_id r) id))
                       (t_receipt_items d) in
  {| t_receipts := filter (fun r => negb (String.eqb (receipts.id r) id))
                          (t_receipts d);
     t_participants := keep_p;
     t_receipt_items := keep_i;
     t_assignments :=
       filter (fun a =>
                 existsb (fun r => receipt_items.id r =? assignments.item_id a)
                         keep_i
                 && existsb (fun r => participants.id r
                                      =? assignments.participant_id a)
                            keep_p)
              (t_assignments d) |}.

Inductive statement : Type :=
| INSERT_receipts (v : receipts.values)
| INSERT_participants (v : participants.values)
| INSERT_receipt_items (v : receipt_items.values)
| INSERT_assignments (v : assignments.values)
| UPDATE_receipts (id : string) (s : receipts_set)
| UPDATE_assignments (item_id participant_id : uuid) (v : offered Z)
| DELETE_receipts (id : string).

Definition execute (e : env) (s : statement) (d : database)
  : result database :=
  match s with
  | INSERT_receipts v => insert_receipts e v d
  | INSERT_participants v => insert_participants e v d
  | INSERT_receipt_items v => insert_receipt_items e v d
  | INSERT_assignments v => insert_assignments v d
  | UPDATE_receipts id s => update_receipts id s d
  | UPDATE_assignments i p v => update_assignments i p v d
  | DELETE_receipts id => inr (delete_receipts id d)
  end.

(** A session: statements run in turn, a failing one leaving the tables as
    they were. *)
Fixpoint session (ss : list (env * statement)) (d : database) : database :=
  match ss with
  | [] => d
  | (e, s) :: rest =>
      match execute e s d with
      | inr d' => session rest d'
      | inl _ => session rest d
      end
  end.

(** The two stored-row invariants. *)
Definition totals_consistent (r : receipts.row) : Prop :=
  receipts.grand_total r
  = receipts.subtotal r + receipts.tax_total r
    + receipts.tip_total r + receipts.fees_total r.

Definition fraction_in_unit_interval (r : assignments.row) : Prop :=
  0 <= assignments.fraction r <= 100000.

(** Both row invariants, table-wide. *)
Definition stored_rows_ok (d : database) : Prop :=
  Forall totals_consistent (t_receipts d)
  /\ Forall fraction_in_unit_interval (t_assignments d).

End Schema.


(* ================================================================== *)
(** ** Sample data *)
(* ================================================================== *)

Module Sample.

Definition item (name price : string) : Item.t :=
  {| Item.name := name; Item.price := price; Item.quantity := "1";
     Item.confidence := None |}.

Definition totals : Totals.t :=
  {| Totals.subtotal := "30.00"; Totals.tax_total := "2.40";
     Totals.tip_total := "6.00"; Totals.fees_total := "0.00";
     Totals.grand_total := "38.40" |}.

Definition owes (who total : string) : ParticipantCost.t :=
  {| ParticipantCost.participant := who;
     ParticipantCost.item_costs := [];
     ParticipantCost.subtotal := total;
     ParticipantCost.tax_share := "0.00";
     ParticipantCost.tip_share := "0.00";
     ParticipantCost.fees_share := "0.00";
     ParticipantCost.total_owed := total |}.

(** An extraction with the given items and diagnostics, and the costs the
    backend has computed, if any. *)
Definition receipt (items : list Item.t) (questions : list string)
  (costs : option (list ParticipantCost.t)) : ReceiptState.t :=
  {| ReceiptState.thread_id := "thread-1";
     ReceiptState.image_path := None;
     ReceiptState.items := items;
     ReceiptState.participants := [];
     ReceiptState.assignments := [];
     ReceiptState.totals := Some totals;
     ReceiptState.confidence := None;
     ReceiptState.audit_log := [];
     ReceiptState.current_node := None;
     ReceiptState.pending_questions := questions;
     ReceiptState.final_costs := costs |}.

Definition two_items : list Item.t :=
  [item "Burger" "12.00"; item "Pizza" "18.00"].

Definition four_items : list Item.t :=
  [item "Burger" "12.00"; item "Pizza" "18.00";
   item "Salad" "9.00"; item "Soda" "3.00"].

Definition low (field : string) : string :=
  ("Low confidence on " ++ field)%string.

Definition extracted : ReceiptState.t := receipt two_items [] None.

Definition unreadable : ReceiptState.t := receipt [] [] None.

Definition split : list ParticipantCost.t :=
  [owes "Alice" "15.36"; owes "Bob" "11.52"; owes "Charlie" "11.52"].

Definition uploaded (s : ReceiptState.t) : JS.awaited UploadResponse.t :=
  JS.resolved {| UploadResponse.thread_id := ReceiptState.thread_id s;
                 UploadResponse.state := s |}.

Definition answered (s : ReceiptState.t) : JS.awaited InterviewResponse.t :=
  JS.resolved {| InterviewResponse.thread_id := ReceiptState.thread_id s;
                 InterviewResponse.state := s |}.

(** The backend asks back. *)
Definition asks : JS.awaited InterviewResponse.t :=
  answered (receipt two_items ["Who had the pizza?"] None).

(** The backend asks back although it also sends costs. *)
Definition asks_with_costs : JS.awaited InterviewResponse.t :=
  answered (receipt two_items ["Who had the pizza?"] (Some split)).

(** The backend sends the split. *)
Definition done : JS.awaited InterviewResponse.t :=
  answered (receipt two_items [] (Some split)).

(** The page after an accepted upload. *)
Definition in_review : list Page.event :=
  [Page.pickFile; Page.settle 0 (Page.uploadSettled (uploaded extracted))].

(** The page while the upload is in flight ... *)
Definition uploading : Page.Config :=
  {| Page.home := Page.setLoading true Page.initial;
     Page.inFlight := [Page.inUpload] |}.

(** ... once the gate has turned the extraction down ... *)
Definition turned_down : Page.Config :=
  {| Page.home := Page.setError (Some Page.POOR_RECEIPT) Page.initial;
     Page.inFlight := [] |}.

(** ... in Review with [k] attempts used ... *)
Definition reviewing (s : ReceiptState.t) (note : option string) (k : nat)
  : Page.Config :=
  {| Page.home :=
       {| Page.step := review; Page.loading := false; Page.error := None;
          Page.state := Some s; Page.clarification := note;
          Page.attempts := k |};
     Page.inFlight := [] |}.

(** ... and while a round is in flight. *)
Definition interviewing (text : string) : Page.Config :=
  {| Page.home :=
       {| Page.step := review; Page.loading := true; Page.error := None;
          Page.state := Some extracted; Page.clarification := None;
          Page.attempts := 0 |};
     Page.inFlight := [Page.inInterview "thread-1" text 0] |}.

(** The page showing the split. *)
Definition showing_results : Page.Config :=
  {| Page.home :=
       {| Page.step := results; Page.loading := false; Page.error := None;
          Page.state := Some (receipt two_items [] (Some split));
          Page.clarification := None; Page.attempts := 0 |};
     Page.inFlight := [] |}.

(** Two people owing six cents each against a receipt of six cents. *)
Definition only (grand : string) : Totals.t :=
  {| Totals.subtotal := grand; Totals.tax_total := "0.00";
     Totals.tip_total := "0.00"; Totals.fees_total := "0.00";
     Totals.grand_total := grand |}.

Definition six_cents_over : list ParticipantCost.t :=
  [owes "Alice" "0.06"; owes "Bob" "0.06"].

(** Rows for the tables: a receipt with the given money columns (in
    cents), and an assignment of item 1 to participant 2. *)
Definition clock : Schema.env :=
  {| Schema.NOW := 0%Z; Schema.gen_random_uuid := 1%Z |}.

Definition receipt_values (id : string) (subtotal tax tip fees grand : Z)
  : Schema.receipts.values :=
  {| Schema.receipts.v_id := Schema.VALUE id;
     Schema.receipts.v_subtotal := Schema.VALUE subtotal;
     Schema.receipts.v_tax_total := Schema.VALUE tax;
     Schema.receipts.v_tip_total := Schema.VALUE tip;
     Schema.receipts.v_fees_total := Schema.VALUE fees;
     Schema.receipts.v_grand_total := Schema.VALUE grand;
     Schema.receipts.v_created_at := Schema.DEFAULT |}.

Definition assignment_values (fraction : Z) : Schema.assignments.values :=
  {| Schema.assignments.v_item_id := Schema.VALUE 1%Z;
     Schema.assignments.v_participant_id := Schema.VALUE 2%Z;
     Schema.assignments.v_fraction := Schema.VALUE fraction |}.

Definition burger : Schema.receipt_items.values :=
  {| Schema.receipt_items.v_id := Schema.VALUE 1%Z;
     Schema.receipt_items.v_receipt_id := Schema.VALUE "thread-1";
     Schema.receipt_items.v_name := Schema.VALUE "Burger";
     Schema.receipt_items.v_quantity := Schema.VALUE 1000%Z;
     Schema.receipt_items.v_unit_price := Schema.VALUE 1200%Z;
     Schema.receipt_items.v_line_total := Schema.VALUE 1200%Z;
     Schema.receipt_items.v_confidence := Schema.NULL;
     Schema.receipt_items.v_created_at := Schema.DEFAULT |}.

Definition alice : Schema.participants.values :=
  {| Schema.participants.v_id := Schema.VALUE 2%Z;
     Schema.participants.v_receipt_id := Schema.VALUE "thread-1";
     Schema.participants.v_name := Schema.VALUE "Alice";
     Schema.participants.v_created_at := Schema.DEFAULT |}.

(** A receipt, an item and a participant, ready for assignments. *)
Definition seeded : list (Schema.env * Schema.statement) :=
  [(clock, Schema.INSERT_receipts
             (receipt_values "thread-1" 3000 240 600 0 3840));
   (clock, Schema.INSERT_receipt_items burger);
   (clock, Schema.INSERT_participants alice)].

End Sample.


(* ================================================================== *)
(** ** Step 1: choosing a file ([UploadStep.tsx]) *)
(* ================================================================== *)

Module UploadStep.

(** What the handlers read of a [File]. *)
Record File : Type := mkFile
  { name : string;
    type : string }.

Definition ACCEPTED : list string :=
  ["image/jpeg"; "image/png"; "image/webp"; "image/gif"; "image/bmp"].

(** [ACCEPTED.includes(file.type)] *)
Definition accepted (type : string) : bool :=
  existsb (String.eqb type) ACCEPTED.

(** The two [useState] cells of the component. *)
Record Local : Type := mkLocal
  { dragOver : bool;
    fileName : option string }.

Definition initial : Local := {| dragOver := false; fileName := None |}.

Definition setDragOver (v : bool) (l : Local) : Local :=
  {| dragOver := v; fileName := fileName l |}.

Definition setFileName (v : option string) (l : Local) : Local :=
  {| dragOver := dragOver l; fileName := v |}.

Definition handleDragOver : Local -> Local := setDragOver true.

Definition handleDragLeave : Local -> Local := setDragOver false.

(** [handleDrop]; [files] is [e.dataTransfer.files] (empty when absent),
    [onUpload] acts on what the parent owns. *)
Definition handleDrop {S : Type} (onUpload : File -> S -> S)
  (files : list File) (l : Local) (s : S) : Local * S :=
  let l := setDragOver false l in
  match files with
  | file :: _ =>
      if accepted (type file)
      then (setFileName (Some (name file)) l, onUpload file s)
      else (l, s)
  | [] => (l, s)
  end.

(** [handleFileChange]; [files] is [e.target.files]. *)
Definition handleFileChange {S : Type} (onUpload : File -> S -> S)
  (files : list File) (l : Local) (s : S) : Local * S :=
  match files with
  | file :: _ => (setFileName (Some (name file)) l, onUpload file s)
  | [] => (l, s)
  end.

(** The text of the drop zone: [fileName ?? "Drag & drop ..."]. *)
Definition label (l : Local) : string :=
  match fileName l with
  | Some n => n
  | None => "Drag & drop your receipt here, or click to browse"
  end.

(** [{error && (...)}]: the banner needs a message that is not empty. *)
Definition errorBanner (error : option string) : bool :=
  match error with
  | Some message => JS.truthy message
  | None => false
  end.

End UploadStep.

(* ================================================================== *)
(** ** The API client ([lib/api.ts])

    What [fetch] and [res.json()] can come to, for a request whose
    successful answer is an [A].  A body that parses is modelled at the
    type the code reads it at: the declared response type when [res.ok],
    an object with an optional string [detail] (or [null]) otherwise. *)
(* ================================================================== *)

Module Api.

Inductive ErrorBody : Type :=
| notJson                              (* res.json() rejects: .catch(() => null) *)
| jsonNull
| jsonObject (detail : option string).

Inductive Reply (A : Type) : Type :=
| fetchRejected (message : string)     (* no response at all *)
| notOk (status : nat) (body : ErrorBody)
| okJson (value : A)
| okNotJson (message : string).        (* res.ok, but res.json() rejects *)
Arguments fetchRejected {A} message.
Arguments notOk {A} status body.
Arguments okJson {A} value.
Arguments okNotJson {A} message.

(** [body?.detail] *)
Definition detail (body : ErrorBody) : option string :=
  match body with
  | jsonObject d => d
  | _ => None
  end.

(** [a ?? b] *)
Definition orElse (a : option string) (b : string) : string :=
  match a with
  | Some v => v
  | None => b
  end.

(** [uploadReceipt], given what the POST to [/upload] comes to. *)
Definition uploadReceipt (reply : Reply UploadResponse.t)
  : JS.awaited UploadResponse.t :=
  match reply with
  | fetchRejected message => JS.rejected (JS.ErrorObject message)
  | notOk status body =>
      JS.rejected
        (JS.ErrorObject
           (orElse (detail body)
                   ("Upload failed (" ++ JS.show_nat status ++ ")")%string))
  | okJson value => JS.resolved value
  | okNotJson message => JS.rejected (JS.ErrorObject message)
  end.

(** [submitInterview], given what the POST to [/interview/<threadId>]
    comes to. *)
Definition submitInterview (reply : Reply InterviewResponse.t)
  : JS.awaited InterviewResponse.t :=
  match reply with
  | fetchRejected message => JS.rejected (JS.ErrorObject message)
  | notOk status body =>
      JS.rejected
        (JS.ErrorObject
           (orElse (detail body)
                   ("Interview submission failed ("
                    ++ JS.show_nat status ++ ")")%string))
  | okJson value => JS.resolved value
  | okNotJson message => JS.rejected (JS.ErrorObject message)
  end.

End Api.

(* ================================================================== *)
(** ** More about the page: what is on screen, what a session counts *)
(* ================================================================== *)

Module Session.

Import Page.

(** The four children of [<main>], in the order of the JSX. *)
Definition screens (h : Home) : list bool :=
  [rendersSpinner h; rendersUploadStep h; rendersReviewStep h;
   rendersResultsStep h].

Definition shown (h : Home) : nat :=
  length (filter (fun b => b) (screens h)).

(** The note that ends a clarification. *)
Definition attemptNote (k : nat) : string :=
  ("(Attempt " ++ JS.show_nat k ++ " of 3)")%string.

(** A clarification, when there is one, is a message followed by the note
    of the current count, and is only there in Review with nothing in
    flight. *)
Definition clarified (h : Home) : Prop :=
  match clarification h with
  | None => True
  | Some text =>
      step h = review /\ loading h = false /\ 1 <= attempts h
      /\ exists message,
           text = (message ++ JS.LF ++ JS.LF ++ attemptNote (attempts h))%string
  end.

(** The text a suspended interview was called with. *)
Definition sentText (r : suspended) : option string :=
  match r with
  | inUpload => None
  | inInterview _ text _ => Some text
  end.

Definition sentTrimmed (r : suspended) : Prop :=
  match r with
  | inUpload => True
  | inInterview _ text _ => JS.truthy text = true /\ JS.trim text = text
  end.

(** What every configuration of the page satisfies beyond
    [Page.consistent]. *)
Definition tidy (c : Config) : Prop :=
  consistent c
  /\ clarified (home c)
  /\ attempts (home c) < MAX_INTERVIEW_ATTEMPTS
  /\ (error (home c) = None
      \/ (step (home c) = upload /\ loading (home c) = false))
  /\ Forall sentTrimmed (inFlight c).

(** Interview responses among the events. *)
Definition isInterviewResponse (e : event) : bool :=
  match e with
  | settle _ (interviewSettled _) => true
  | _ => false
  end.

Definition responses (es : list event) : nat :=
  length (filter isInterviewResponse es).

(** [run], given up as soon as the page is anywhere but in Review. *)
Fixpoint runInReview (es : list event) (c : Config) : option Config :=
  match es with
  | [] => Some c
  | e :: es' =>
      match dispatch e c with
      | Some c' =>
          match step (home c') with
          | review => runInReview es' c'
          | _ => None
          end
      | None => None
      end
  end.

(** The page driven by the API client: the request in flight settles to
    what the client makes of the reply. *)
Definition uploadReplied (reply : Api.Reply UploadResponse.t) : event :=
  settle 0 (uploadSettled (Api.uploadReceipt reply)).

Definition interviewReplied (reply : Api.Reply InterviewResponse.t) : event :=
  settle 0 (interviewSettled (Api.submitInterview reply)).

End Session.

(* ================================================================== *)
(** ** More about the schema: keys and references *)
(* ================================================================== *)

Module Integrity.

Import Schema.
Local Open Scope Z_scope.

(** The key columns of each table. *)
Definition receipts_pkey (d : database) : list string :=
  map receipts.id (t_receipts d).

Definition participants_pkey (d : database) : list uuid :=
  map participants.id (t_participants d).

Definition participants_unique_per_receipt (d : database)
  : list (string * string) :=
  map (fun r => (participants.receipt_id r, participants.name r))
      (t_participants d).

Definition receipt_items_pkey (d : database) : list uuid :=
  map receipt_items.id (t_receipt_items d).

Definition assignments_pkey (d : database) : list (uuid * uuid) :=
  map (fun r => (assignments.item_id r, assignments.participant_id r))
      (t_assignments d).

Definition keys_unique (d : database) : Prop :=
  NoDup (receipts_pkey d)
  /\ NoDup (participants_pkey d)
  /\ NoDup (participants_unique_per_receipt d)
  /\ NoDup (receipt_items_pkey d)
  /\ NoDup (assignments_pkey d).

(** Every foreign key points at a stored row. *)
Definition references_hold (d : database) : Prop :=
  Forall (fun r => In (participants.receipt_id r) (receipts_pkey d))
         (t_participants d)
  /\ Forall (fun r => In (receipt_items.receipt_id r) (receipts_pkey d))
            (t_receipt_items d)
  /\ Forall (fun r => In (assignments.item_id r) (receipt_items_pkey d)
                      /\ In (assignments.participant_id r)
                            (participants_pkey d))
            (t_assignments d).

End Integrity.

(* ================================================================== *)
(** ** More about strings *)
(* ================================================================== *)

Module Text.

(** The last character of a string, if any. *)
Fixpoint lastChar (s : string) : option ascii :=
  match s with
  | EmptyString => None
  | String ch EmptyString => Some ch
  | String _ rest => lastChar rest
  end.

End Text.

(* ================================================================== *)
(** ** More sample data *)
(* ================================================================== *)

Module Cases.

(** Two failure messages at once, one item. *)
Definition failed_twice : ReceiptState.t :=
  Sample.receipt [Sample.item "Burger" "12.00"]
    ["Vision model failed"; "Vision model failed: retry"] None.

(** The same extraction with and without per-field scores. *)
Definition unsure : ItemConfidence.t :=
  {| ItemConfidence.name := Some 0.125%float;
     ItemConfidence.quantity := Some 0.125%float;
     ItemConfidence.unit_price := Some 0.125%float |}.

Definition scored (name price : string) : Item.t :=
  {| Item.name := name; Item.price := price; Item.quantity := "1";
     Item.confidence := Some unsure |}.

Definition pdf : UploadStep.File :=
  {| UploadStep.name := "receipt.pdf"; UploadStep.type := "application/pdf" |}.

Definition photo : UploadStep.File :=
  {| UploadStep.name := "receipt.png"; UploadStep.type := "image/png" |}.

(** A call log for [onUpload]. *)
Definition logUpload (f : UploadStep.File) (log : list UploadStep.File)
  : list UploadStep.File :=
  log ++ [f].

(** The page while the third round of a session is in flight: two rounds
    have failed, the text has been submitted again. *)
Definition asked_twice : list Page.event :=
  Sample.in_review
  ++ Page.failedRound "Alice had the burger" Sample.asks
  ++ Page.failedRound "and Bob the pizza" Sample.asks
  ++ [Page.clickSubmit "I said so"].

Definition third_round : Page.Config :=
  {| Page.home :=
       {| Page.step := review; Page.loading := true; Page.error := None;
          Page.state :=
            Some (Sample.receipt Sample.two_items ["Who had the pizza?"] None);
          Page.clarification := None; Page.attempts := 2 |};
     Page.inFlight := [Page.inInterview "thread-1" "I said so" 2] |}.

End Cases.


(* ================================================================== *)
(** * Properties *)
(* ================================================================== *)

(** ** The built-ins on sample inputs *)

Section BuiltIns.

Example toLowerCase_mixed :
  JS.toLowerCase "Vision MODEL Failed: 42" = "vision model failed: 42".
Proof. reflexivity. Qed.

Example includes_inside :
  JS.includes "the vision model failed to respond" "vision model failed" = true
  /\ JS.includes "low confidence" "confident" = false
  /\ JS.includes "" "" = true.
Proof. repeat split. Qed.

Example trim_both_ends : JS.trim ("  a b " ++ JS.LF) = "a b".
Proof. reflexivity. Qed.

Example join_two : JS.join ", " ["a"; "b"] = "a, b" /\ JS.join ", " [] = "".
Proof. split; reflexivity. Qed.

Example show_nat_12 : JS.show_nat 12 = "12" /\ JS.show_nat 0 = "0".
Proof. split; reflexivity. Qed.

Example parseFloat_prefix :
  JS.parseFloat "  -12.50abc" = (-12.5)%float
  /\ JS.parseFloat "5.e3" = 5000%float
  /\ JS.parseFloat ".5" = 0.5%float
  /\ JS.parseFloat "1e" = 1%float
  /\ JS.parseFloat "abc" = nan
  /\ JS.parseFloat "-Infinity" = neg_infinity.
Proof. repeat split. Qed.

End BuiltIns.

(** ** The quality gate *)

Section QualityGate.

Import Gate.

(** On a positive denominator, "the quotient is at least one half" is the
    integer comparison [den <= 2 * num]. *)
Lemma ratio_at_least_half (num den : nat) :
  0 < den ->
  Qle_bool (1 # 2)%Q (ratio num den) = (den <=? 2 * num).
Proof.
  intros Hden.
  apply eq_true_iff_eq.
  rewrite Qle_bool_iff, Nat.leb_le.
  unfold ratio, Qdiv, Qle.
  destruct (Z.of_nat den) as [|p|p] eqn:E; try lia.
  simpl. rewrite <- E. lia.
Qed.

(** Case 1 of the code is the hard-failure rule. *)
Lemma case1_is_hard_failure (qs : list string) :
  (length qs =? 1) && vision_failed (nth 0 qs "") = hard_failure qs.
Proof.
  destruct qs as [|q [|q' rest]]; reflexivity.
Qed.

Lemma isReceiptTooPoor_evaluate (s : ReceiptState.t) :
  isReceiptTooPoor s
  = rejects (evaluate (ReceiptState.items s) (ReceiptState.pending_questions s)).
Proof.
  unfold isReceiptTooPoor, evaluate.
  rewrite case1_is_hard_failure.
  destruct (hard_failure (ReceiptState.pending_questions s)); [reflexivity|].
  destruct (length (ReceiptState.items s) =? 0); [reflexivity|].
  match goal with |- ?b = _ => destruct b end; reflexivity.
Qed.

Lemma isReceiptTooPoor_cases (s : ReceiptState.t) :
  isReceiptTooPoor s
  = hard_failure (ReceiptState.pending_questions s)
    || (length (ReceiptState.items s) =? 0)
    || (totalFields s <=? 2 * flagCount s).
Proof.
  unfold isReceiptTooPoor, totalFields, flagCount.
  rewrite case1_is_hard_failure.
  destruct (hard_failure (ReceiptState.pending_questions s)); [reflexivity|].
  destruct (Nat.eqb_spec (length (ReceiptState.items s)) 0) as [E|E];
    [reflexivity|].
  cbn [orb].
  assert (Hpos : 0 < length (ReceiptState.items s) * 3) by lia.
  rewrite (ratio_at_least_half _ _ Hpos).
  apply Nat.ltb_lt in Hpos. rewrite Hpos. reflexivity.
Qed.

(** C1.  [isReceiptTooPoor] is the three-rule gate of the specification,
    rules tried in order and the first match deciding: it rejects exactly
    when [evaluate] does; [evaluate] answers rule 1 whenever the single
    diagnostic reports a failed extraction, rule 2 whenever rule 1 does not
    apply and there is no item, rule 3 whenever neither applies and the
    flagged share of the [3 * N] field slots is at least one half, and
    accepts otherwise.  In particular no items means rejection, and so
    does [totalFields <= 2 * flagCount], the boundary of exactly one half
    included; below one half, with items and no hard failure, the gate
    accepts. *)
Theorem C1_quality_gate_rules :
  (forall s, isReceiptTooPoor s
             = rejects (evaluate (ReceiptState.items s)
                                 (ReceiptState.pending_questions s)))
  /\ (forall items qs,
        hard_failure qs = true ->
        evaluate items qs = Reject "extraction failed")
  /\ (forall items qs,
        hard_failure qs = false -> length items = 0 ->
        evaluate items qs = Reject "no items found")
  /\ (forall items qs,
        hard_failure qs = false -> 0 < length items ->
        length items * 3 <= 2 * length (filter mentions_confidence qs) ->
        evaluate items qs = Reject "too many low-confidence fields")
  /\ (forall items qs,
        hard_failure qs = false -> 0 < length items ->
        2 * length (filter mentions_confidence qs) < length items * 3 ->
        evaluate items qs = Accept)
  /\ (forall s, length (ReceiptState.items s) = 0 -> isReceiptTooPoor s = true)
  /\ (forall s, totalFields s <= 2 * flagCount s -> isReceiptTooPoor s = true)
  /\ (forall s, 0 < totalFields s -> totalFields s = 2 * flagCount s ->
                isReceiptTooPoor s = true)
  /\ (forall s, hard_failure (ReceiptState.pending_questions s) = false ->
                0 < length (ReceiptState.items s) ->
                2 * flagCount s < totalFields s ->
                isReceiptTooPoor s = false).
Proof.
  split; [exact isReceiptTooPoor_evaluate|].
  split.
  { intros items qs H. unfold evaluate. rewrite H. reflexivity. }
  split.
  { intros items qs H H0. unfold evaluate. rewrite H, H0. reflexivity. }
  split.
  { intros items qs H Hpos Hle. unfold evaluate. rewrite H.
    destruct (Nat.eqb_spec (length items) 0) as [E|_]; [lia|].
    assert (Hp : 0 < length items * 3) by lia.
    rewrite (ratio_at_least_half _ _ Hp).
    apply Nat.ltb_lt in Hp. apply Nat.leb_le in Hle.
    rewrite Hp, Hle. reflexivity. }
  split.
  { intros items qs H Hpos Hlt. unfold evaluate. rewrite H.
    destruct (Nat.eqb_spec (length items) 0) as [E|_]; [lia|].
    assert (Hp : 0 < length items * 3) by lia.
    rewrite (ratio_at_least_half _ _ Hp).
    apply Nat.leb_gt in Hlt. rewrite Hlt, andb_false_r. reflexivity. }
  split.
  { intros s H. rewrite isReceiptTooPoor_cases, H.
    cbn [Nat.eqb]. rewrite orb_true_r. reflexivity. }
  split.
  { intros s H. rewrite isReceiptTooPoor_cases.
    apply Nat.leb_le in H. rewrite H. apply orb_true_r. }
  split.
  { intros s _ H. rewrite isReceiptTooPoor_cases.
    assert (Hle : totalFields s <= 2 * flagCount s) by lia.
    apply Nat.leb_le in Hle. rewrite Hle. apply orb_true_r. }
  intros s Hh Hpos Hlt. rewrite isReceiptTooPoor_cases, Hh.
  destruct (Nat.eqb_spec (length (ReceiptState.items s)) 0) as [E|_]; [lia|].
  apply Nat.leb_gt in Hlt. rewrite Hlt. reflexivity.
Qed.

End QualityGate.

(** ** The page as a state machine *)

Section InterviewMachine.

Import Page.

Lemma consistent_start : consistent start.
Proof. cbv. auto. Qed.

Lemma truthy_trim_idem (text : string) :
  JS.truthy (JS.trim text) = true ->
  ReviewStep.handleSubmit onSubmit text = onSubmit (JS.trim text).
Proof.
  intros H. unfold ReviewStep.handleSubmit. rewrite H. reflexivity.
Qed.

(** The two outcomes of [handleFailedAttempt], as records. *)
Lemma handleFailedAttempt_exhausted (a : nat) (message : string) (h : Home) :
  MAX_INTERVIEW_ATTEMPTS <= a + 1 ->
  handleFailedAttempt a message h
  = {| step := upload; loading := loading h;
       error := Some NOT_ENOUGH_INFORMATION; state := None;
       clarification := None; attempts := 0 |}.
Proof.
  intros H. unfold handleFailedAttempt, andThen.
  apply Nat.leb_le in H. rewrite H. reflexivity.
Qed.

Lemma handleFailedAttempt_retry (a : nat) (message : string) (h : Home) :
  a + 1 < MAX_INTERVIEW_ATTEMPTS ->
  handleFailedAttempt a message h
  = {| step := step h; loading := loading h; error := error h;
       state := state h;
       clarification :=
         Some (message ++ JS.LF ++ JS.LF
               ++ "(Attempt " ++ JS.show_nat (a + 1)
               ++ " of " ++ JS.show_nat MAX_INTERVIEW_ATTEMPTS ++ ")")%string;
       attempts := a + 1 |}.
Proof.
  intros H. unfold handleFailedAttempt, andThen.
  apply Nat.leb_gt in H. rewrite H. reflexivity.
Qed.

(** A failed round is one call of [handleFailedAttempt] ... *)
Lemma handleInterview_resume_failed
  (a : nat) (res : JS.awaited InterviewResponse.t) (h : Home) :
  round_failed res = true ->
  handleInterview_resume a res h
  = setLoading false
      (handleFailedAttempt a (failure_message res) (received res h)).
Proof.
  destruct res as [r|[m|]]; cbn [round_failed failure_message received];
    unfold handleInterview_resume, andThen; try reflexivity.
  destruct (0 <? length (ReceiptState.pending_questions
                           (InterviewResponse.state r))); [reflexivity|].
  cbn [orb]. intros H. apply negb_true_iff in H. rewrite H. reflexivity.
Qed.

(** ... and any other round moves to the results. *)
Lemma handleInterview_resume_succeeded
  (a : nat) (res : JS.awaited InterviewResponse.t) (h : Home) :
  round_failed res = false ->
  exists r, res = JS.resolved r
            /\ has_final_costs (InterviewResponse.state r) = true
            /\ handleInterview_resume a res h
               = setLoading false
                   (setStep results
                      (setState (Some (InterviewResponse.state r)) h)).
Proof.
  destruct res as [r|err]; cbn [round_failed]; [|discriminate].
  intros H. apply orb_false_iff in H. destruct H as [Hq Hc].
  apply negb_false_iff in Hc.
  exists r. repeat split; auto.
  unfold handleInterview_resume, andThen. rewrite Hq, Hc. reflexivity.
Qed.

(** Case analysis on the requests in flight, keeping the cases the
    invariant [I] allows. *)
Ltac one_in_flight fl I :=
  destruct fl as [|[|? ? ?] [|? ?]]; cbn in I |- *;
  try contradiction;
  try (destruct I as [I _]; discriminate);
  try (destruct I as (_ & I & _); discriminate).

Lemma dispatch_consistent (e : event) (c c' : Config) :
  consistent c -> dispatch e c = Some c' -> consistent c'.
Proof.
  destruct c as [[st ld er s cl a] fl].
  unfold consistent, dispatch; cbn [home inFlight].
  intros I D.
  destruct e as [|text| | |i r].
  - (* pickFile *)
    unfold rendersUploadStep in D; cbn in D.
    destruct st; try discriminate. destruct ld; try discriminate.
    injection D as <-.
    one_in_flight fl I.
    destruct I as [_ [-> ->]]. cbn. auto.
  - (* clickSubmit *)
    unfold rendersReviewStep, ReviewStep.submitDisabled in D; cbn in D.
    destruct st; try discriminate. destruct s as [s|]; try discriminate.
    destruct ld; try discriminate. cbn in D.
    destruct (JS.truthy (JS.trim text)) eqn:T; try discriminate.
    rewrite (truthy_trim_idem _ T) in D. cbn in D.
    injection D as <-.
    one_in_flight fl I.
    destruct I as [_ [_ Ha]]. cbn. repeat split; auto. eauto.
  - (* clickCancel *)
    unfold rendersReviewStep, ReviewStep.cancelDisabled in D; cbn in D.
    destruct st; try discriminate. destruct s as [s|]; try discriminate.
    destruct ld; try discriminate. cbn in D.
    injection D as <-.
    one_in_flight fl I.
    auto.
  - (* clickStartOver *)
    unfold rendersResultsStep in D; cbn in D.
    destruct st; try discriminate. destruct s as [s|]; try discriminate.
    destruct (ReceiptState.final_costs s); try discriminate.
    injection D as <-.
    one_in_flight fl I.
    auto.
  - (* settle *)
    destruct fl as [|[|t x a0] [|? ?]]; cbn in I; try contradiction.
    + destruct i; discriminate.
    + destruct I as (-> & -> & -> & ->).
      destruct i as [|i]; [|destruct i; discriminate].
      cbn in D. destruct r as [res|res]; try discriminate.
      injection D as <-. cbn.
      destruct res as [res|err]; cbn.
      * destruct (Gate.isReceiptTooPoor (UploadResponse.state res)); cbn; auto.
        repeat split; try discriminate; auto; unfold MAX_INTERVIEW_ATTEMPTS; lia.
      * auto.
    + destruct I as (-> & -> & -> & Ha & s0 & -> & Ht).
      destruct i as [|i]; [|destruct i; discriminate].
      cbn in D. destruct r as [res|res]; try discriminate.
      injection D as <-. cbn [home inFlight remove_nth].
      destruct (round_failed res) eqn:F.
      * rewrite (handleInterview_resume_failed _ _ _ F).
        destruct (Nat.leb_spec MAX_INTERVIEW_ATTEMPTS (a + 1)) as [H|H].
        -- rewrite (handleFailedAttempt_exhausted _ _ _ H). cbn. auto.
        -- rewrite (handleFailedAttempt_retry _ _ _ H).
           destruct res; cbn; repeat split; try discriminate; auto.
      * destruct (handleInterview_resume_succeeded a res
                    {| step := review; loading := true; error := er;
                       state := Some s0; clarification := cl; attempts := a |} F)
          as (r & -> & Hc & ->).
        cbn. eauto.
Qed.

Lemma run_consistent (es : list event) :
  forall c c', consistent c -> run es c = Some c' -> consistent c'.
Proof.
  induction es as [|e es IH]; cbn [run]; intros c c' I R.
  - injection R as <-. exact I.
  - destruct (dispatch e c) as [c1|] eqn:D; [|discriminate].
    eapply IH; [|exact R]. eapply dispatch_consistent; eauto.
Qed.

Lemma reachable_consistent (c : Config) : reachable c -> consistent c.
Proof.
  intros [es R]. eapply run_consistent; [exact consistent_start | exact R].
Qed.


Lemma run_app (es1 es2 : list event) (c : Config) :
  run (es1 ++ es2) c
  = match run es1 c with
    | Some c1 => run es2 c1
    | None => None
    end.
Proof.
  revert c. induction es1 as [|e es1 IH]; intros c; cbn [run app].
  - reflexivity.
  - destruct (dispatch e c); [apply IH | reflexivity].
Qed.

Lemma reachable_run (es : list event) (c c' : Config) :
  reachable c -> run es c = Some c' -> reachable c'.
Proof.
  intros [es0 R0] R. exists (es0 ++ es). rewrite run_app, R0. exact R.
Qed.

(** In a consistent configuration an interview response can only settle
    the one request in flight, and resumes the handler that closed over the
    current counter. *)
Lemma settle_interview (c c' : Config) (i : nat)
  (res : JS.awaited InterviewResponse.t) :
  consistent c ->
  dispatch (settle i (interviewSettled res)) c = Some c' ->
  step (home c) = review
  /\ loading (home c) = true
  /\ attempts (home c) < MAX_INTERVIEW_ATTEMPTS
  /\ (exists s, state (home c) = Some s)
  /\ c' = {| home := handleInterview_resume (attempts (home c)) res (home c);
             inFlight := [] |}.
Proof.
  destruct c as [h fl]. unfold consistent, dispatch; cbn [home inFlight].
  intros I D.
  destruct fl as [|[|t x a] [|? ?]]; cbn in I; try contradiction.
  - destruct i; discriminate.
  - destruct i as [|[|i]]; discriminate.
  - destruct I as (Hl & Hs & -> & Ha & s & Hst & _).
    destruct i as [|[|i]]; try discriminate.
    cbn in D. injection D as <-. repeat split; eauto.
Qed.

Lemma settle_upload (c c' : Config) (i : nat)
  (res : JS.awaited UploadResponse.t) :
  consistent c ->
  dispatch (settle i (uploadSettled res)) c = Some c' ->
  step (home c) = upload
  /\ loading (home c) = true
  /\ state (home c) = None
  /\ attempts (home c) = 0
  /\ c' = {| home := handleUpload_resume res (home c); inFlight := [] |}.
Proof.
  destruct c as [h fl]. unfold consistent, dispatch; cbn [home inFlight].
  intros I D.
  destruct fl as [|[|t x a] [|? ?]]; cbn in I; try contradiction.
  - destruct i; discriminate.
  - destruct I as (Hl & Hs & Hst & Ha).
    destruct i as [|[|i]]; try discriminate.
    cbn in D. injection D as <-. repeat split; eauto.
  - destruct i as [|[|i]]; discriminate.
Qed.

(** In review with nothing in flight, submitting text that is not blank
    starts a round. *)
Lemma submit_starts_round (c : Config) (text : string) :
  consistent c ->
  step (home c) = review -> loading (home c) = false ->
  JS.truthy (JS.trim text) = true ->
  exists threadId,
    dispatch (clickSubmit text) c
    = Some {| home := setClarification None (setLoading true (home c));
              inFlight := [inInterview threadId (JS.trim text)
                                       (attempts (home c))] |}.
Proof.
  destruct c as [[st ld er s cl a] fl].
  unfold consistent; cbn [home inFlight step loading].
  intros I -> -> T.
  one_in_flight fl I.
  destruct I as (_ & Hs & _).
  destruct s as [s|]; [|contradiction].
  exists (ReceiptState.thread_id s).
  unfold dispatch, rendersReviewStep, ReviewStep.submitDisabled.
  cbn [home step state loading]. rewrite T. cbn [orb negb andb].
  rewrite (truthy_trim_idem _ T). reflexivity.
Qed.

(** One failed round, start to end. *)
Lemma failedRound_run (c : Config) (text : string)
  (res : JS.awaited InterviewResponse.t) :
  consistent c ->
  step (home c) = review -> loading (home c) = false ->
  JS.truthy (JS.trim text) = true ->
  round_failed res = true ->
  exists c',
    run (failedRound text res) c = Some c'
    /\ consistent c'
    /\ inFlight c' = []
    /\ loading (home c') = false
    /\ (MAX_INTERVIEW_ATTEMPTS <= attempts (home c) + 1 ->
        home c' = exhausted)
    /\ (attempts (home c) + 1 < MAX_INTERVIEW_ATTEMPTS ->
        step (home c') = review
        /\ state (home c') <> None
        /\ attempts (home c') = attempts (home c) + 1).
Proof.
  intros I Hs Hl T F.
  destruct (submit_starts_round c text I Hs Hl T) as [t D].
  unfold failedRound. cbn [run]. rewrite D.
  cbn [dispatch inFlight nth_error home remove_nth].
  eexists. split; [reflexivity|].
  assert (I1 : consistent
                 {| home := setClarification None (setLoading true (home c));
                    inFlight := [inInterview t (JS.trim text)
                                             (attempts (home c))] |})
    by (eapply dispatch_consistent; eauto).
  split.
  { eapply (dispatch_consistent (settle 0 (interviewSettled res))); [exact I1|].
    reflexivity. }
  cbn [home inFlight].
  rewrite (handleInterview_resume_failed _ _ _ F).
  split; [reflexivity|]. split; [reflexivity|].
  split; intros H.
  - rewrite (handleFailedAttempt_exhausted _ _ _ H). reflexivity.
  - rewrite (handleFailedAttempt_retry _ _ _ H). cbn.
    split; [destruct res; cbn; exact Hs|].
    split; [|destruct res; reflexivity].
    destruct res; cbn; [discriminate|].
    unfold consistent in I1; cbn in I1.
    destruct I1 as (_ & _ & _ & _ & s0 & E & _). rewrite E. discriminate.
Qed.

(** The text shown with a retry: the message, a blank line, the note. *)
Lemma retry_text (message : string) (k : nat) :
  (message ++ JS.LF ++ JS.LF ++ "(Attempt " ++ JS.show_nat k
   ++ " of " ++ JS.show_nat MAX_INTERVIEW_ATTEMPTS ++ ")")%string
  = (message ++ JS.LF ++ JS.LF ++ "(Attempt " ++ JS.show_nat k ++ " of 3)")%string.
Proof. reflexivity. Qed.

(** C2.  A round that fails (questions came back, the request threw, or
    nothing usable came back) counts one attempt.  When the count reaches
    the budget of 3 the page is back on Upload with the receipt state and
    the clarification cleared, the counter at 0 and the "not enough
    information" error shown; below the budget the page stays in Review
    with the count stored.  A session enters Review with the counter at 0;
    from there three failed rounds in a row always end on Upload with
    everything cleared, and two failed rounds in a row leave the page in
    Review, receipt state kept, with 2 attempts used. *)
Theorem C2_failed_rounds_and_budget :
  MAX_INTERVIEW_ATTEMPTS = 3
  /\ (forall c c' i res,
        reachable c ->
        dispatch (settle i (interviewSettled res)) c = Some c' ->
        round_failed res = true ->
        (MAX_INTERVIEW_ATTEMPTS <= attempts (home c) + 1 ->
         c' = {| home := {| step := upload; loading := false;
                            error := Some NOT_ENOUGH_INFORMATION;
                            state := None; clarification := None;
                            attempts := 0 |};
                 inFlight := [] |})
        /\ (attempts (home c) + 1 < MAX_INTERVIEW_ATTEMPTS ->
            step (home c') = review
            /\ state (home c') <> None
            /\ attempts (home c') = attempts (home c) + 1))
  /\ (forall c c' i res,
        reachable c ->
        dispatch (settle i (uploadSettled res)) c = Some c' ->
        step (home c') = review ->
        attempts (home c') = 0 /\ loading (home c') = false)
  /\ (forall c t1 r1 t2 r2 t3 r3,
        reachable c ->
        step (home c) = review -> loading (home c) = false ->
        attempts (home c) = 0 ->
        JS.truthy (JS.trim t1) = true -> round_failed r1 = true ->
        JS.truthy (JS.trim t2) = true -> round_failed r2 = true ->
        JS.truthy (JS.trim t3) = true -> round_failed r3 = true ->
        run (failedRound t1 r1 ++ failedRound t2 r2 ++ failedRound t3 r3) c
        = Some {| home := exhausted; inFlight := [] |})
  /\ (forall c t1 r1 t2 r2,
        reachable c ->
        step (home c) = review -> loading (home c) = false ->
        attempts (home c) = 0 ->
        JS.truthy (JS.trim t1) = true -> round_failed r1 = true ->
        JS.truthy (JS.trim t2) = true -> round_failed r2 = true ->
        exists c',
          run (failedRound t1 r1 ++ failedRound t2 r2) c = Some c'
          /\ step (home c') = review
          /\ state (home c') <> None
          /\ attempts (home c') = 2).
Proof.
  split; [reflexivity|].
  split.
  { intros c c' i res R D F.
    apply reachable_consistent in R.
    destruct (settle_interview _ _ _ _ R D) as (Hs & Hl & Ha & [s Hst] & ->).
    cbn [home inFlight].
    rewrite (handleInterview_resume_failed _ _ _ F).
    split; intros H.
    - rewrite (handleFailedAttempt_exhausted _ _ _ H). reflexivity.
    - rewrite (handleFailedAttempt_retry _ _ _ H). cbn.
      split; [destruct res; exact Hs|].
      split; [|reflexivity].
      destruct res; cbn; [discriminate | rewrite Hst; discriminate]. }
  split.
  { intros c c' i res R D Hs.
    apply reachable_consistent in R.
    destruct (settle_upload _ _ _ _ R D) as (_ & _ & _ & Ha & ->).
    cbn [home] in *.
    destruct res as [res|err]; cbn in *.
    - destruct (Gate.isReceiptTooPoor (UploadResponse.state res)); cbn; auto.
    - auto. }
  split.
  { intros c t1 r1 t2 r2 t3 r3 R Hs Hl Ha T1 F1 T2 F2 T3 F3.
    apply reachable_consistent in R.
    destruct (failedRound_run c t1 r1 R Hs Hl T1 F1)
      as (c1 & R1 & I1 & _ & L1 & _ & K1).
    destruct K1 as (S1 & _ & A1); [rewrite Ha; cbv; lia|].
    destruct (failedRound_run c1 t2 r2 I1 S1 L1 T2 F2)
      as (c2 & R2 & I2 & _ & L2 & _ & K2).
    destruct K2 as (S2 & _ & A2); [rewrite A1, Ha; cbv; lia|].
    destruct (failedRound_run c2 t3 r3 I2 S2 L2 T3 F3)
      as (c3 & R3 & _ & N3 & _ & K3 & _).
    rewrite run_app, R1, run_app, R2, R3.
    destruct c3 as [h3 f3]. cbn in *. subst f3.
    rewrite K3; [reflexivity|]. rewrite A2, A1, Ha. cbv. lia. }
  intros c t1 r1 t2 r2 R Hs Hl Ha T1 F1 T2 F2.
  apply reachable_consistent in R.
  destruct (failedRound_run c t1 r1 R Hs Hl T1 F1)
    as (c1 & R1 & I1 & _ & L1 & _ & K1).
  destruct K1 as (S1 & _ & A1); [rewrite Ha; cbv; lia|].
  destruct (failedRound_run c1 t2 r2 I1 S1 L1 T2 F2)
    as (c2 & R2 & I2 & _ & L2 & _ & K2).
  destruct K2 as (S2 & St2 & A2); [rewrite A1, Ha; cbv; lia|].
  exists c2. rewrite run_app, R1, R2.
  repeat split; auto. rewrite A2, A1, Ha. reflexivity.
Qed.

(** C4.  Wherever the page can be, if it is on Upload the attempt counter
    is 0: the explicit reset and the exhausted budget, the two ways into
    Upload, both store 0, and nothing that can happen on Upload changes the
    counter. *)
Theorem C4_upload_means_zero_attempts :
  (forall c, reachable c -> step (home c) = upload -> attempts (home c) = 0)
  /\ (forall h, step (handleStartOver h) = upload
                /\ attempts (handleStartOver h) = 0)
  /\ (forall a message h,
        MAX_INTERVIEW_ATTEMPTS <= a + 1 ->
        step (handleFailedAttempt a message h) = upload
        /\ attempts (handleFailedAttempt a message h) = 0)
  /\ (forall c e c',
        reachable c -> step (home c) = upload ->
        dispatch e c = Some c' ->
        attempts (home c') = attempts (home c)).
Proof.
  assert (Z : forall c, consistent c -> step (home c) = upload ->
                        attempts (home c) = 0).
  { intros [h fl] I Hs. unfold consistent in I. cbn [home inFlight] in *.
    destruct fl as [|[|? ? ?] [|? ?]]; try contradiction.
    - destruct I as [_ I]. rewrite Hs in I. apply I.
    - apply I.
    - destruct I as (_ & I & _). congruence. }
  split; [intros c R; apply Z, reachable_consistent, R|].
  split; [intros h; split; reflexivity|].
  split.
  { intros a message h H.
    rewrite (handleFailedAttempt_exhausted _ _ _ H). split; reflexivity. }
  intros c e c' R Hs D.
  assert (I : consistent c) by (apply reachable_consistent, R).
  destruct c as [[st ld er s cl a] fl]. cbn [home step] in Hs. subst st.
  destruct e as [|text| | |i r]; cbn in D.
  - destruct ld; [discriminate|]. injection D as <-. reflexivity.
  - discriminate.
  - discriminate.
  - discriminate.
  - destruct r as [res|res].
    + destruct (settle_upload _ _ _ _ I D) as (_ & _ & _ & _ & ->).
      destruct res as [res|err]; cbn.
      * destruct (Gate.isReceiptTooPoor (UploadResponse.state res)); reflexivity.
      * reflexivity.
    + destruct (settle_interview _ _ _ _ I D) as (Hr & _). discriminate.
Qed.

(** C5.  When the gate rejects the extraction the page stays on Upload
    and shows the rejection message; the attempt counter is what it was
    (0), no receipt state is stored, nothing is left in flight and the
    upload control is back on screen. *)
Theorem C5_gate_reject_stays_on_upload :
  forall c c' i res,
    reachable c ->
    dispatch (settle i (uploadSettled (JS.resolved res))) c = Some c' ->
    Gate.isReceiptTooPoor (UploadResponse.state res) = true ->
    step (home c) = upload
    /\ step (home c') = upload
    /\ error (home c') = Some POOR_RECEIPT
    /\ attempts (home c') = attempts (home c)
    /\ state (home c') = state (home c)
    /\ state (home c') = None
    /\ clarification (home c') = clarification (home c)
    /\ loading (home c') = false
    /\ inFlight c' = []
    /\ rendersUploadStep (home c') = true.
Proof.
  intros c c' i res R D G.
  apply reachable_consistent in R.
  destruct (settle_upload _ _ _ _ R D) as (Hs & Hl & Hst & Ha & ->).
  cbn [home inFlight handleUpload_resume]. rewrite G.
  unfold andThen, rendersUploadStep. cbn. rewrite Hs, Hst.
  repeat split; reflexivity.
Qed.


(** C7.  On Results the only thing that can happen is the explicit reset:
    no request is in flight, neither the upload control nor the interview
    form is on screen, and "Start Over" puts the page back in the
    configuration it started in (Upload, no receipt state, no error, no
    clarification, counter 0). *)
Theorem C7_results_only_exit_is_reset :
  forall c,
    reachable c -> step (home c) = results ->
    dispatch clickStartOver c = Some start
    /\ (forall e c', dispatch e c = Some c' ->
                     e = clickStartOver /\ c' = start)
    /\ start = {| home := {| step := upload; loading := false; error := None;
                             state := None; clarification := None;
                             attempts := 0 |};
                  inFlight := [] |}.
Proof.
  intros c R Hs.
  apply reachable_consistent in R.
  destruct c as [[st ld er s cl a] fl].
  unfold consistent in R. cbn [home inFlight step] in *. subst st.
  destruct fl as [|[|? ? ?] [|? ?]]; try contradiction;
    try (destruct R as (_ & R & _); discriminate).
  destruct R as (Hl & s0 & Hst & Hc). cbn in Hl, Hst. subst ld s.
  assert (Hf : exists costs, ReceiptState.final_costs s0 = Some costs).
  { unfold has_final_costs in Hc.
    destruct (ReceiptState.final_costs s0); [eauto | discriminate]. }
  destruct Hf as [costs Hf].
  assert (D0 : dispatch clickStartOver
                 {| home := {| step := results; loading := false; error := er;
                               state := Some s0; clarification := cl;
                               attempts := a |};
                    inFlight := [] |} = Some start).
  { unfold dispatch, rendersResultsStep. cbn. rewrite Hf. reflexivity. }
  split; [exact D0|].
  split; [|reflexivity].
  intros e c' D.
  destruct e as [|text| | |i r].
  - cbn in D. discriminate.
  - cbn in D. discriminate.
  - cbn in D. discriminate.
  - rewrite D0 in D. injection D as <-. split; reflexivity.
  - cbn in D. destruct i; discriminate.
Qed.

(** C9, as the code has it.  When a response carries both questions and
    final costs the questions win: the round is handled as a failed attempt
    with the joined questions as its message, and the page does not move
    to Results.  With attempts to spare that means Review, one more attempt
    counted and the questions shown with the attempt note; on the third
    failed attempt the budget is used up and the page resets to Upload,
    with no clarification and the counter back at 0. *)
Theorem C9_questions_before_costs :
  forall c c' i r,
    reachable c ->
    dispatch (settle i (interviewSettled (JS.resolved r))) c = Some c' ->
    ReceiptState.pending_questions (InterviewResponse.state r) <> [] ->
    has_final_costs (InterviewResponse.state r) = true ->
    let s := InterviewResponse.state r in
    let questions := JS.join (JS.LF ++ JS.LF) (ReceiptState.pending_questions s) in
    step (home c') <> results
    /\ home c'
       = setLoading false
           (handleFailedAttempt (attempts (home c)) questions
              (setState (Some s) (home c)))
    /\ (attempts (home c) + 1 < 3 ->
        step (home c') = review
        /\ attempts (home c') = attempts (home c) + 1
        /\ clarification (home c')
           = Some (questions ++ JS.LF ++ JS.LF
                   ++ "(Attempt " ++ JS.show_nat (attempts (home c) + 1)
                   ++ " of 3)")%string)
    /\ (3 <= attempts (home c) + 1 -> home c' = exhausted).
Proof.
  intros c c' i r R D Q F s questions.
  apply reachable_consistent in R.
  destruct (settle_interview _ _ _ _ R D) as (Hs & Hl & Ha & [s0 Hst] & ->).
  cbn [home inFlight].
  assert (Hq : (0 <? length (ReceiptState.pending_questions
                               (InterviewResponse.state r))) = true).
  { destruct (ReceiptState.pending_questions (InterviewResponse.state r));
      [contradiction | reflexivity]. }
  assert (E : handleInterview_resume (attempts (home c)) (JS.resolved r) (home c)
              = setLoading false
                  (handleFailedAttempt (attempts (home c)) questions
                     (setState (Some s) (home c)))).
  { unfold handleInterview_resume, andThen. rewrite Hq. reflexivity. }
  rewrite E.
  destruct (Nat.leb_spec MAX_INTERVIEW_ATTEMPTS (attempts (home c) + 1)) as [H|H].
  - rewrite (handleFailedAttempt_exhausted _ _ _ H). cbn.
    split; [discriminate|]. split; [reflexivity|].
    split; [unfold MAX_INTERVIEW_ATTEMPTS in H; lia | reflexivity].
  - rewrite (handleFailedAttempt_retry _ _ _ H), retry_text. cbn.
    rewrite Hs.
    split; [discriminate|]. split; [reflexivity|].
    split; [auto | unfold MAX_INTERVIEW_ATTEMPTS in H; lia].
Qed.

End InterviewMachine.

(** ** The submit button *)

Section BlankSubmission.

Lemma trimStart_blank (text : string) :
  JS.all_chars JS.isWhiteSpace text = true -> JS.trimStart text = "".
Proof.
  induction text as [|ch text IH]; cbn [JS.all_chars JS.trimStart].
  - reflexivity.
  - intros H. apply andb_true_iff in H. destruct H as [Hc Ht].
    rewrite Hc. exact (IH Ht).
Qed.

Lemma trim_blank (text : string) :
  JS.all_chars JS.isWhiteSpace text = true -> JS.trim text = "".
Proof.
  intros H. unfold JS.trim. rewrite (trimStart_blank _ H). reflexivity.
Qed.

(** C10.  Text that is empty or consists of white space only submits
    nothing: [handleSubmit] returns without calling [onSubmit], whatever
    the callback is and whatever it acts on, so a call log stays as it
    was and so does the page when the callback is [handleInterview]; the
    button itself is disabled, so no click reaches the page either. *)
Theorem C10_blank_text_submits_nothing :
  forall text,
    JS.all_chars JS.isWhiteSpace text = true ->
    (forall (S : Type) (onSubmit : string -> S -> S) (s : S),
        ReviewStep.handleSubmit onSubmit text s = s)
    /\ (forall calls : list string,
          ReviewStep.handleSubmit (fun t log => log ++ [t]) text calls = calls)
    /\ (forall c, ReviewStep.handleSubmit Page.onSubmit text c = c)
    /\ (forall loading, ReviewStep.submitDisabled loading text = true)
    /\ (forall c, Page.dispatch (Page.clickSubmit text) c = None).
Proof.
  intros text H.
  assert (E : forall (S : Type) (onSubmit : string -> S -> S) (s : S),
             ReviewStep.handleSubmit onSubmit text s = s).
  { intros S onSubmit s. unfold ReviewStep.handleSubmit.
    rewrite (trim_blank _ H). reflexivity. }
  assert (Dis : forall loading, ReviewStep.submitDisabled loading text = true).
  { intros l. unfold ReviewStep.submitDisabled.
    rewrite (trim_blank _ H). apply orb_true_r. }
  split; [exact E|].
  split; [intros calls; apply E|].
  split; [intros c; apply E|].
  split; [exact Dis|].
  intros c. unfold Page.dispatch. rewrite Dis.
  cbn [negb]. rewrite andb_false_r. reflexivity.
Qed.

End BlankSubmission.

(** ** The storage boundary *)

Section StorageBoundary.

Import Schema.
Local Open Scope Z_scope.

(** Peels the successful steps off a chain of [bind]s. *)
Ltac bind_inv H :=
  repeat match type of H with
         | bind ?r _ = inr _ =>
             let E := fresh "E" in
             destruct r eqn:E; cbn [bind] in H; [discriminate|]
         end.

Lemma CHECK_holds (constraint : string) (b : bool) (u : unit) :
  CHECK constraint b = inr u -> b = true.
Proof. unfold CHECK. destruct b; [reflexivity | discriminate]. Qed.

Lemma receipts_constraints_sound (r : receipts.row) (u : unit) :
  receipts_constraints r = inr u -> totals_consistent r.
Proof.
  unfold receipts_constraints. intros H. bind_inv H.
  apply CHECK_holds in H. apply Z.eqb_eq in H. exact H.
Qed.

Lemma assignments_constraints_sound (r : assignments.row) (u : unit) :
  assignments_constraints r = inr u -> fraction_in_unit_interval r.
Proof.
  unfold assignments_constraints. intros H.
  apply CHECK_holds in H. apply andb_true_iff in H.
  unfold fraction_in_unit_interval. lia.
Qed.

Lemma update_where_Forall {R : Type} (P : R -> Prop)
  (cond : R -> bool) (f : R -> result R) :
  (forall r r', f r = inr r' -> P r') ->
  forall rows rows',
    Forall P rows -> update_where cond f rows = inr rows' -> Forall P rows'.
Proof.
  intros Hf. induction rows as [|r rows IH]; cbn [update_where]; intros rows' HP H.
  - injection H as <-. constructor.
  - inversion HP as [|? ? Hr Hrows]; subst.
    bind_inv H. injection H as <-.
    constructor.
    + destruct (cond r); [eapply Hf; eassumption | congruence].
    + apply IH; auto.
Qed.

Lemma insert_receipts_row (e : env) (v : receipts.values) (d d' : database) :
  insert_receipts e v d = inr d' ->
  exists r, t_receipts d' = t_receipts d ++ [r]
            /\ t_assignments d' = t_assignments d
            /\ totals_consistent r.
Proof.
  unfold insert_receipts. intros H. bind_inv H. injection H as <-.
  eexists. cbn. split; [reflexivity|]. split; [reflexivity|].
  eapply receipts_constraints_sound; eassumption.
Qed.

Lemma insert_assignments_row (v : assignments.values) (d d' : database) :
  insert_assignments v d = inr d' ->
  exists r, t_assignments d' = t_assignments d ++ [r]
            /\ t_receipts d' = t_receipts d
            /\ fraction_in_unit_interval r.
Proof.
  unfold insert_assignments. intros H. bind_inv H. injection H as <-.
  eexists. cbn. split; [reflexivity|]. split; [reflexivity|].
  eapply assignments_constraints_sound; eassumption.
Qed.

Lemma update_receipts_row_sound (s : receipts_set) (r r' : receipts.row) :
  update_receipts_row s r = inr r' -> totals_consistent r'.
Proof.
  unfold update_receipts_row. intros H. bind_inv H. injection H as <-.
  eapply receipts_constraints_sound; eassumption.
Qed.

Lemma update_assignments_row_sound (v : offered Z) (r r' : assignments.row) :
  update_assignments_row v r = inr r' -> fraction_in_unit_interval r'.
Proof.
  unfold update_assignments_row. intros H. bind_inv H. injection H as <-.
  eapply assignments_constraints_sound; eassumption.
Qed.

Lemma Forall_filter {A : Type} (P : A -> Prop) (keep : A -> bool) (xs : list A) :
  Forall P xs -> Forall P (filter keep xs).
Proof.
  intros H. apply Forall_forall. intros x Hx.
  apply filter_In in Hx. destruct Hx as [Hx _].
  rewrite Forall_forall in H. auto.
Qed.

Lemma execute_keeps_rows_ok (e : env) (s : statement) (d d' : database) :
  stored_rows_ok d -> execute e s d = inr d' -> stored_rows_ok d'.
Proof.
  unfold stored_rows_ok. intros [HR HA] H.
  destruct s as [v|v|v|v|id s|i p v|id]; cbn [execute] in H.
  - destruct (insert_receipts_row _ _ _ _ H) as (r & -> & -> & Hr).
    split; [apply Forall_app; auto | exact HA].
  - unfold insert_participants in H. bind_inv H. injection H as <-.
    split; assumption.
  - unfold insert_receipt_items in H. bind_inv H. injection H as <-.
    split; assumption.
  - destruct (insert_assignments_row _ _ _ H) as (r & -> & -> & Hr).
    split; [exact HR | apply Forall_app; auto].
  - unfold update_receipts in H. bind_inv H. injection H as <-. cbn.
    split; [|exact HA].
    eapply update_where_Forall; [|exact HR|eassumption].
    apply update_receipts_row_sound.
  - unfold update_assignments in H. bind_inv H. injection H as <-. cbn.
    split; [exact HR|].
    eapply update_where_Forall; [|exact HA|eassumption].
    apply update_assignments_row_sound.
  - injection H as <-. cbn. split; apply Forall_filter; assumption.
Qed.

Lemma session_keeps_rows_ok (ss : list (env * statement)) :
  forall d, stored_rows_ok d -> stored_rows_ok (session ss d).
Proof.
  induction ss as [|[e s] ss IH]; intros d Hd; cbn [session].
  - exact Hd.
  - destruct (execute e s d) as [err|d'] eqn:E.
    + apply IH, Hd.
    + apply IH. eapply execute_keeps_rows_ok; eauto.
Qed.

(** C8.  Whatever statements have run against the freshly created tables,
    every stored receipt has [grand_total] equal, exactly, to
    [subtotal + tax_total + tip_total + fees_total], and every stored
    assignment has its fraction between 0 and 1 (0 and 100000 units of
    [10^-5]).  The constraints act when a row is created: an [INSERT] that
    succeeds adds one row, and that row satisfies them. *)
Theorem C8_stored_rows_satisfy_constraints :
  (forall ss,
      Forall totals_consistent (t_receipts (session ss created))
      /\ Forall fraction_in_unit_interval (t_assignments (session ss created)))
  /\ (forall e v d d',
        insert_receipts e v d = inr d' ->
        exists r, t_receipts d' = t_receipts d ++ [r]
                  /\ receipts.grand_total r
                     = receipts.subtotal r + receipts.tax_total r
                       + receipts.tip_total r + receipts.fees_total r)
  /\ (forall v d d',
        insert_assignments v d = inr d' ->
        exists r, t_assignments d' = t_assignments d ++ [r]
                  /\ 0 <= assignments.fraction r <= 100000).
Proof.
  split.
  { intros ss. apply (session_keeps_rows_ok ss created).
    split; constructor. }
  split.
  - intros e v d d' H.
    destruct (insert_receipts_row _ _ _ _ H) as (r & Hr & _ & Hc). eauto.
  - intros v d d' H.
    destruct (insert_assignments_row _ _ _ H) as (r & Hr & _ & Hc). eauto.
Qed.

End StorageBoundary.

(** ** The validation row *)

Section Reconciliation.

Import ResultsStep.
Local Open Scope float_scope.

(** On binary64, strictly below implies at most. *)
Lemma ltb_leb (x y : float) : (x <? y) = true -> (x <=? y) = true.
Proof.
  rewrite ltb_spec, leb_spec. unfold SFltb, SFleb.
  destruct (SFcompare (Prim2SF x) (Prim2SF y)) as [[| |]|];
    try discriminate; reflexivity.
Qed.

(** The literal of the source is what [parseFloat] makes of "0.06". *)
Lemma literal_0_06_parsed : literal_0_06 = JS.parseFloat "0.06".
Proof. reflexivity. Qed.

(** C3, as the code has it.  The cards of all participants are rendered
    whatever the totals say.  With receipt totals present, the absolute
    difference between the sum of the parsed [total_owed] and the parsed
    [grand_total] is tested strictly against 0.06: below it the row says
    the totals match, otherwise (0.06 itself included, and a difference
    that is not a number) it says they differ and by how much.  So a match
    is always within the inclusive tolerance, and whatever is outside the
    inclusive tolerance is flagged.  Without receipt totals no comparison
    is shown. *)
Theorem C3_reconciliation_is_strict :
  forall costs totals,
    cards (ResultsStep costs totals) = map renderCard costs
    /\ length (cards (ResultsStep costs totals)) = length costs
    /\ sumOfAllShares (ResultsStep costs totals) = grandTotal costs
    /\ (totals = None -> validation (ResultsStep costs totals) = None)
    /\ (forall t,
          totals = Some t ->
          ((discrepancy costs t <? literal_0_06) = true ->
           validation (ResultsStep costs totals) = Some TotalsMatch)
          /\ ((discrepancy costs t <? literal_0_06) = false ->
              validation (ResultsStep costs totals)
              = Some (TotalsDiffer (discrepancy costs t)))
          /\ (validation (ResultsStep costs totals) = Some TotalsMatch ->
              within_tolerance_inclusive costs t = true)
          /\ (within_tolerance_inclusive costs t = false ->
              validation (ResultsStep costs totals)
              = Some (TotalsDiffer (discrepancy costs t)))).
Proof.
  intros costs totals.
  split; [reflexivity|].
  split; [apply length_map|].
  split; [reflexivity|].
  split; [intros ->; reflexivity|].
  intros t ->.
  unfold ResultsStep, within_tolerance_inclusive; cbn [validation dollars].
  fold (discrepancy costs t).
  destruct (discrepancy costs t <? literal_0_06) eqn:E.
  - repeat split; try discriminate; try reflexivity.
    + intros _. apply ltb_leb, E.
    + intros H. rewrite (ltb_leb _ _ E) in H. discriminate.
  - repeat split; try discriminate; reflexivity.
Qed.

(** The split of the specification's scenario reconciles. *)
Lemma C3_reconciliation_witness :
  validation (ResultsStep Sample.split (Some Sample.totals)) = Some TotalsMatch
  /\ length (cards (ResultsStep Sample.split (Some Sample.totals))) = 3%nat.
Proof.
  destruct (C3_reconciliation_is_strict Sample.split (Some Sample.totals))
    as (_ & Hlen & _ & _ & Hv).
  destruct (Hv Sample.totals eq_refl) as (Hm & _).
  split; [apply Hm; reflexivity | exact Hlen].
Defined.

(** C3 as stated fails on the boundary: a sum that is off by 0.06 is
    within the inclusive tolerance, yet the row reports that the totals
    differ by 0.06 (the cards are shown all the same). *)
Lemma C3_inclusive_tolerance_counterexample :
  discrepancy Sample.six_cents_over (Sample.only "0.06") = literal_0_06
  /\ within_tolerance_inclusive Sample.six_cents_over (Sample.only "0.06") = true
  /\ validation (ResultsStep Sample.six_cents_over (Some (Sample.only "0.06")))
     = Some (TotalsDiffer literal_0_06)
  /\ validation (ResultsStep Sample.six_cents_over (Some (Sample.only "0.06")))
     <> Some TotalsMatch.
Proof.
  split; [reflexivity|]. split; [reflexivity|]. split; [reflexivity|].
  discriminate.
Qed.

(** Binary64 rounding decides the sums whose decimal difference is exactly
    0.06: 10.03 + 10.03 against 20.00 comes out just below the literal and
    matches, 19.23 + 19.23 against 38.40 comes out just above and differs. *)
Lemma decimal_boundary_depends_on_rounding :
  validation (ResultsStep [Sample.owes "Alice" "10.03"; Sample.owes "Bob" "10.03"]
                          (Some (Sample.only "20.00")))
  = Some TotalsMatch
  /\ validation (ResultsStep [Sample.owes "Alice" "19.23"; Sample.owes "Bob" "19.23"]
                             (Some (Sample.only "38.40")))
     <> Some TotalsMatch.
Proof. split; [reflexivity | discriminate]. Qed.

End Reconciliation.

(** ** Concrete runs *)

Section Runs.

Import Page.

Lemma reviewing_reachable : reachable (Sample.reviewing Sample.extracted None 0).
Proof. exists Sample.in_review. reflexivity. Qed.

Lemma interviewing_reachable :
  reachable (Sample.interviewing "Alice had the burger").
Proof.
  exists (Sample.in_review ++ [clickSubmit " Alice had the burger "]).
  reflexivity.
Qed.

(** Four items, twelve field slots: three flags pass, six do not. *)
Lemma C1_quality_gate_witness :
  Gate.isReceiptTooPoor
    (Sample.receipt Sample.four_items
       [Sample.low "name"; Sample.low "quantity"; Sample.low "unit price"]
       None) = false
  /\ Gate.isReceiptTooPoor
       (Sample.receipt Sample.four_items
          [Sample.low "name"; Sample.low "quantity"; Sample.low "unit price";
           Sample.low "name"; Sample.low "quantity"; Sample.low "unit price"]
          None) = true
  /\ Gate.isReceiptTooPoor Sample.unreadable = true.
Proof.
  destruct C1_quality_gate_rules
    as (_ & _ & _ & _ & _ & Hnone & Hhalf & _ & Hbelow).
  split; [apply Hbelow; [reflexivity | vm_compute; lia | vm_compute; lia]|].
  split; [apply Hhalf; vm_compute; lia | apply Hnone; reflexivity].
Defined.

(** Three failed rounds from a fresh review end on Upload. *)
Lemma C2_failed_rounds_witness :
  run (failedRound "Alice had the burger" Sample.asks
       ++ failedRound "and Bob the pizza" (JS.rejected (JS.ErrorObject "timeout"))
       ++ failedRound "I said so" Sample.asks)
      (Sample.reviewing Sample.extracted None 0)
  = Some {| home := exhausted; inFlight := [] |}.
Proof.
  destruct C2_failed_rounds_and_budget as (_ & _ & _ & Hthree & _).
  apply Hthree; try reflexivity. exact reviewing_reachable.
Defined.

Lemma C4_upload_means_zero_attempts_witness :
  reachable Sample.turned_down
  /\ step (home Sample.turned_down) = upload
  /\ attempts (home Sample.turned_down) = 0.
Proof.
  assert (R : reachable Sample.turned_down).
  { exists [pickFile;
            settle 0 (uploadSettled (Sample.uploaded Sample.unreadable))].
    reflexivity. }
  split; [exact R|]. split; [reflexivity|].
  apply (proj1 C4_upload_means_zero_attempts _ R). reflexivity.
Defined.

Lemma C5_gate_reject_witness :
  reachable Sample.uploading
  /\ Gate.isReceiptTooPoor Sample.unreadable = true
  /\ step (home Sample.turned_down) = upload
  /\ error (home Sample.turned_down) = Some POOR_RECEIPT
  /\ attempts (home Sample.turned_down) = attempts (home Sample.uploading)
  /\ state (home Sample.turned_down) = None.
Proof.
  assert (R : reachable Sample.uploading) by (exists [pickFile]; reflexivity).
  assert (G : Gate.isReceiptTooPoor
                (UploadResponse.state
                   (UploadResponse.mk "thread-1" Sample.unreadable)) = true)
    by reflexivity.
  assert (D : dispatch (settle 0 (uploadSettled
                                    (JS.resolved
                                       (UploadResponse.mk "thread-1"
                                          Sample.unreadable))))
                Sample.uploading
              = Some Sample.turned_down) by reflexivity.
  destruct (C5_gate_reject_stays_on_upload _ _ _ _ R D G)
    as (_ & Hs & He & Ha & _ & Hst & _).
  repeat split; assumption.
Defined.


Lemma C7_results_witness :
  reachable Sample.showing_results
  /\ step (home Sample.showing_results) = results
  /\ dispatch clickStartOver Sample.showing_results = Some start.
Proof.
  assert (R : reachable Sample.showing_results).
  { exists (Sample.in_review
            ++ [clickSubmit "Alice had the burger";
                settle 0 (interviewSettled Sample.done)]).
    reflexivity. }
  split; [exact R|]. split; [reflexivity|].
  apply (C7_results_only_exit_is_reset _ R). reflexivity.
Defined.

Lemma C9_questions_before_costs_witness :
  has_final_costs
    (Sample.receipt Sample.two_items ["Who had the pizza?"] (Some Sample.split))
  = true
  /\ step (home (Sample.reviewing
                   (Sample.receipt Sample.two_items ["Who had the pizza?"]
                      (Some Sample.split))
                   (Some ("Who had the pizza?" ++ JS.LF ++ JS.LF
                          ++ "(Attempt 1 of 3)")%string) 1))
     <> results.
Proof.
  split; [reflexivity|].
  assert (D : dispatch
                (settle 0
                   (interviewSettled
                      (JS.resolved
                         (InterviewResponse.mk "thread-1"
                            (Sample.receipt Sample.two_items
                               ["Who had the pizza?"] (Some Sample.split))))))
                (Sample.interviewing "Alice had the burger")
              = Some (Sample.reviewing
                        (Sample.receipt Sample.two_items
                           ["Who had the pizza?"] (Some Sample.split))
                        (Some ("Who had the pizza?" ++ JS.LF ++ JS.LF
                               ++ "(Attempt 1 of 3)")%string) 1))
    by reflexivity.
  apply (C9_questions_before_costs _ _ _ _ interviewing_reachable D);
    [discriminate | reflexivity].
Defined.

Lemma C10_blank_text_witness :
  ReviewStep.handleSubmit onSubmit ("  " ++ JS.LF)
    (Sample.reviewing Sample.extracted None 0)
  = Sample.reviewing Sample.extracted None 0
  /\ dispatch (clickSubmit ("  " ++ JS.LF))
       (Sample.reviewing Sample.extracted None 0) = None.
Proof.
  destruct (C10_blank_text_submits_nothing ("  " ++ JS.LF) eq_refl)
    as (_ & _ & Hpage & _ & Hclick).
  split; [apply Hpage | apply Hclick].
Defined.

(** An inconsistent receipt and an out-of-range fraction are refused,
    consistent ones are stored. *)
Lemma C8_stored_rows_witness :
  Schema.execute Sample.clock
    (Schema.INSERT_receipts (Sample.receipt_values "thread-2" 3000 240 600 0 3850))
    (Schema.session Sample.seeded Schema.created)
  = inl (Schema.check_violation "receipts_total_consistency")
  /\ Schema.execute Sample.clock
       (Schema.INSERT_assignments (Sample.assignment_values 150000))
       (Schema.session Sample.seeded Schema.created)
     = inl (Schema.check_violation "assignments_fraction_check")
  /\ length (Schema.t_assignments
                (Schema.session
                   (Sample.seeded
                    ++ [(Sample.clock,
                         Schema.INSERT_assignments
                           (Sample.assignment_values 50000))])
                   Schema.created)) = 1
  /\ Forall Schema.fraction_in_unit_interval
       (Schema.t_assignments
          (Schema.session
             (Sample.seeded
              ++ [(Sample.clock,
                   Schema.INSERT_assignments (Sample.assignment_values 50000))])
             Schema.created)).
Proof.
  split; [reflexivity|]. split; [reflexivity|]. split; [reflexivity|].
  apply (proj1 C8_stored_rows_satisfy_constraints).
Defined.

End Runs.

(* ================================================================== *)
(** * Further properties *)
(* ================================================================== *)

(** ** Strings *)

Section Strings.

Lemma append_assoc (a b c : string) :
  ((a ++ b) ++ c = a ++ (b ++ c))%string.
Proof.
  induction a as [|ch a IH]; cbn; [reflexivity | rewrite IH; reflexivity].
Qed.

Lemma prefix_spec (p s : string) :
  String.prefix p s = true <-> exists post, s = (p ++ post)%string.
Proof.
  revert s. induction p as [|a p IH]; intros s.
  - split; [intros _; exists s; reflexivity|].
    intros _. destruct s; reflexivity.
  - destruct s as [|b s]; cbn [String.prefix].
    + split; [discriminate|]. intros [post H]. discriminate.
    + destruct (Ascii.ascii_dec a b) as [->|N].
      * rewrite IH. split; intros [post H]; exists post.
        -- cbn. rewrite H. reflexivity.
        -- cbn in H. injection H as H. exact H.
      * split; [discriminate|]. intros [post H]. cbn in H. congruence.
Qed.

(** [includes] is the substring test. *)
Lemma includes_spec (s needle : string) :
  JS.includes s needle = true
  <-> exists pre post, s = (pre ++ needle ++ post)%string.
Proof.
  induction s as [|a s IH].
  - cbn [JS.includes]. destruct (String.prefix needle "") eqn:P.
    + split; [intros _|reflexivity].
      apply prefix_spec in P. destruct P as [post P].
      exists "", post. exact P.
    + split; [discriminate|]. intros (pre & post & H).
      destruct pre; [|discriminate]. cbn in H.
      assert (String.prefix needle "" = true)
        by (apply prefix_spec; exists post; exact H).
      congruence.
  - cbn [JS.includes]. destruct (String.prefix needle (String a s)) eqn:P.
    + split; [intros _|reflexivity].
      apply prefix_spec in P. destruct P as [post P].
      exists "", post. exact P.
    + rewrite IH. split.
      * intros (pre & post & H). exists (String a pre), post.
        cbn. rewrite H. reflexivity.
      * intros (pre & post & H). destruct pre as [|b pre].
        -- cbn in H.
           assert (String.prefix needle (String a s) = true)
             by (apply prefix_spec; exists post; exact H).
           congruence.
        -- cbn in H. injection H as _ H. exists pre, post. exact H.
Qed.

Lemma trimStart_empty (text : string) :
  JS.trimStart text = "" -> JS.all_chars JS.isWhiteSpace text = true.
Proof.
  induction text as [|ch text IH]; cbn [JS.trimStart JS.all_chars].
  - reflexivity.
  - destruct (JS.isWhiteSpace ch); [exact IH | discriminate].
Qed.

Lemma trimEnd_empty (text : string) :
  JS.trimEnd text = "" -> JS.all_chars JS.isWhiteSpace text = true.
Proof.
  induction text as [|ch text IH]; cbn [JS.trimEnd JS.all_chars].
  - reflexivity.
  - destruct (JS.trimEnd text) eqn:E.
    + destruct (JS.isWhiteSpace ch); [intros _; apply IH; reflexivity|discriminate].
    + discriminate.
Qed.

(** What [trimStart] returns is empty or starts with a visible character,
    and is a suffix of the text. *)
Lemma trimStart_head (text : string) :
  JS.trimStart text = ""
  \/ exists ch rest, JS.trimStart text = String ch rest
                     /\ JS.isWhiteSpace ch = false.
Proof.
  induction text as [|ch text IH]; cbn [JS.trimStart].
  - left. reflexivity.
  - destruct (JS.isWhiteSpace ch) eqn:W; [exact IH|].
    right. exists ch, text. split; [reflexivity | exact W].
Qed.

Lemma trimEnd_keeps_head (ch : ascii) (rest : string) :
  JS.isWhiteSpace ch = false ->
  exists rest', JS.trimEnd (String ch rest) = String ch rest'.
Proof.
  intros W. cbn [JS.trimEnd]. rewrite W.
  destruct (JS.trimEnd rest); eauto.
Qed.

Lemma trimEnd_last (text : string) (last : ascii) :
  Text.lastChar (JS.trimEnd text) = Some last -> JS.isWhiteSpace last = false.
Proof.
  induction text as [|ch text IH]; cbn [JS.trimEnd].
  - discriminate.
  - destruct (JS.trimEnd text) as [|b t] eqn:E.
    + destruct (JS.isWhiteSpace ch) eqn:W; cbn; [discriminate|].
      intros H. injection H as <-. exact W.
    + exact IH.
Qed.

Lemma trimEnd_fixed (text : string) :
  match Text.lastChar text with
  | Some ch => JS.isWhiteSpace ch = false
  | None => True
  end ->
  JS.trimEnd text = text.
Proof.
  induction text as [|ch text IH]; [reflexivity|].
  cbn [Text.lastChar JS.trimEnd]. destruct text as [|b t].
  - intros W. cbn. rewrite W. reflexivity.
  - intros H. rewrite (IH H). reflexivity.
Qed.

Lemma trim_idempotent (text : string) : JS.trim (JS.trim text) = JS.trim text.
Proof.
  unfold JS.trim.
  destruct (trimStart_head text) as [E|(ch & rest & E & W)].
  - rewrite E. reflexivity.
  - rewrite E. destruct (trimEnd_keeps_head ch rest W) as [rest' E'].
    rewrite E'. cbn [JS.trimStart]. rewrite W. rewrite <- E'.
    apply trimEnd_fixed.
    destruct (Text.lastChar (JS.trimEnd (String ch rest))) as [last|] eqn:L; auto.
    apply (trimEnd_last _ _ L).
Qed.

Lemma trim_empty_iff (text : string) :
  JS.trim text = "" <-> JS.all_chars JS.isWhiteSpace text = true.
Proof.
  split; [|apply trim_blank].
  unfold JS.trim. intros H.
  destruct (trimStart_head text) as [E|(ch & rest & E & W)].
  - apply trimStart_empty, E.
  - rewrite E in H. destruct (trimEnd_keeps_head ch rest W) as [rest' E'].
    congruence.
Qed.

End Strings.

(** ** More about the quality gate *)

Section GateInputs.

Import Gate.

Lemma hard_failure_lowered (qs : list string) :
  hard_failure qs
  = match map JS.toLowerCase qs with
    | [q] => JS.includes q "vision model failed"
    | _ => false
    end.
Proof. destruct qs as [|q [|q' rest]]; reflexivity. Qed.

Lemma flags_lowered (qs : list string) :
  length (filter mentions_confidence qs)
  = length (filter (fun q => JS.includes q "confidence")
                   (map JS.toLowerCase qs)).
Proof.
  induction qs as [|q qs IH]; [reflexivity|].
  cbn [filter map]. unfold mentions_confidence at 1.
  destruct (JS.includes (JS.toLowerCase q) "confidence"); cbn [length];
    rewrite IH; reflexivity.
Qed.

(** X1.  The gate reads two things only: how many items there are, and
    the diagnostics with their letters lower-cased.  The items' names,
    prices and per-field confidence scores, the totals and everything else
    in the state do not enter the decision, and neither does the letter
    case of the diagnostics. *)
Theorem gate_reads_item_count_and_lowercased_diagnostics :
  forall s s',
    length (ReceiptState.items s) = length (ReceiptState.items s') ->
    map JS.toLowerCase (ReceiptState.pending_questions s)
    = map JS.toLowerCase (ReceiptState.pending_questions s') ->
    isReceiptTooPoor s = isReceiptTooPoor s'.
Proof.
  intros s s' Hn Hq.
  rewrite !isReceiptTooPoor_cases. unfold totalFields, flagCount.
  rewrite !hard_failure_lowered, !flags_lowered, Hn, Hq. reflexivity.
Qed.

Lemma gate_reads_item_count_witness :
  isReceiptTooPoor
    (Sample.receipt [Sample.item "Burger" "12.00"]
       ["Low confidence on name"; "low confidence on price"] None)
  = isReceiptTooPoor
      (Sample.receipt [Cases.scored "Pizza" "18.00"]
         ["LOW CONFIDENCE ON NAME"; "Low Confidence On Price"] None).
Proof.
  apply gate_reads_item_count_and_lowercased_diagnostics; reflexivity.
Defined.

(** X2.  The vision-failure rule looks at a lone diagnostic only.  With
    no diagnostic, or with two or more, the text "vision model failed" has
    no effect of its own: the gate rejects exactly when there is no item or
    at least half of the field slots are flagged. *)
Theorem gate_failure_message_counts_only_alone :
  forall s,
    length (ReceiptState.pending_questions s) <> 1 ->
    isReceiptTooPoor s
    = (length (ReceiptState.items s) =? 0)
      || (totalFields s <=? 2 * flagCount s).
Proof.
  intros s H. rewrite isReceiptTooPoor_cases.
  destruct (ReceiptState.pending_questions s) as [|q [|q' rest]];
    cbn in H |- *; try reflexivity. contradiction.
Qed.

(** Two failure messages and one item: accepted. *)
Lemma gate_failure_message_witness :
  isReceiptTooPoor Cases.failed_twice = false.
Proof.
  rewrite (gate_failure_message_counts_only_alone Cases.failed_twice);
    [reflexivity | discriminate].
Defined.

(** X3.  What a diagnostic "indicates" is decided by a substring test on
    its lower-cased text: it reports a failed extraction exactly when that
    text contains "vision model failed", and flags a low-confidence field
    exactly when it contains "confidence". *)
Theorem gate_diagnostics_are_substring_tests :
  forall q,
    (vision_failed q = true
     <-> exists pre post,
           JS.toLowerCase q = (pre ++ "vision model failed" ++ post)%string)
    /\ (mentions_confidence q = true
        <-> exists pre post,
              JS.toLowerCase q = (pre ++ "confidence" ++ post)%string).
Proof.
  intros q. split; apply includes_spec.
Qed.

End GateInputs.

(** ** More about the two forms *)

Section Forms.

(** X4.  Text with at least one visible character is submitted once, with
    the white space at both ends removed: [onSubmit] receives a text that
    is not empty, begins and ends with a visible character and that
    trimming again would not change. *)
Theorem handleSubmit_passes_trimmed_text_once :
  forall text,
    JS.all_chars JS.isWhiteSpace text = false ->
    (forall (S : Type) (onSubmit : string -> S -> S) (s : S),
        ReviewStep.handleSubmit onSubmit text s = onSubmit (JS.trim text) s)
    /\ (forall calls : list string,
          ReviewStep.handleSubmit (fun t log => log ++ [t]) text calls
          = calls ++ [JS.trim text])
    /\ (exists first rest,
          JS.trim text = String first rest /\ JS.isWhiteSpace first = false)
    /\ (exists last,
          Text.lastChar (JS.trim text) = Some last /\ JS.isWhiteSpace last = false)
    /\ JS.trim (JS.trim text) = JS.trim text.
Proof.
  intros text H.
  assert (Hne : JS.trim text <> "").
  { intros E. apply trim_empty_iff in E. congruence. }
  assert (Ht : JS.truthy (JS.trim text) = true).
  { destruct (JS.trim text); [contradiction | reflexivity]. }
  assert (E : forall (S : Type) (onSubmit : string -> S -> S) (s : S),
             ReviewStep.handleSubmit onSubmit text s = onSubmit (JS.trim text) s).
  { intros S onSubmit s. unfold ReviewStep.handleSubmit. rewrite Ht. reflexivity. }
  split; [exact E|]. split; [intros calls; apply E|].
  split.
  { unfold JS.trim in *.
    destruct (trimStart_head text) as [E0|(ch & rest & E0 & W)].
    - rewrite E0 in Hne. contradiction.
    - rewrite E0. destruct (trimEnd_keeps_head ch rest W) as [rest' E'].
      exists ch, rest'. split; assumption. }
  split; [|apply trim_idempotent].
  destruct (Text.lastChar (JS.trim text)) as [last|] eqn:L.
  - exists last. split; [reflexivity|]. apply (trimEnd_last _ _ L).
  - destruct (JS.trim text) as [|a [|b t]]; [contradiction | discriminate |].
    exfalso. clear -L. revert a b L.
    induction t as [|x t IH]; intros a b L; cbn in L; [discriminate|].
    apply (IH b x). exact L.
Qed.

Lemma handleSubmit_passes_trimmed_text_witness :
  ReviewStep.handleSubmit (fun t log => log ++ [t])
    ("  Alice had the burger " ++ JS.LF) []
  = ["Alice had the burger"].
Proof.
  destruct (handleSubmit_passes_trimmed_text_once
              ("  Alice had the burger " ++ JS.LF) eq_refl)
    as (_ & H & _).
  exact (H []).
Defined.

(** X5.  Dropping and picking treat the file type differently.  A drop
    looks at the first file only and ignores it unless its type is one of
    the five accepted ones (later files are never considered); the file
    picker uploads the first file whatever its type.  A drop always clears
    the drag highlight. *)
Theorem drop_checks_the_type_and_the_picker_does_not :
  forall (f : UploadStep.File) (rest : list UploadStep.File)
         (l : UploadStep.Local),
    UploadStep.accepted (UploadStep.type f) = false ->
    (forall (S : Type) (onUpload : UploadStep.File -> S -> S) (s : S),
        UploadStep.handleDrop onUpload (f :: rest) l s
        = (UploadStep.setDragOver false l, s))
    /\ UploadStep.handleDrop Cases.logUpload (f :: rest) l []
       = (UploadStep.setDragOver false l, [])
    /\ UploadStep.handleFileChange Cases.logUpload (f :: rest) l []
       = (UploadStep.setFileName (Some (UploadStep.name f)) l, [f]).
Proof.
  intros f rest l H.
  assert (E : forall (S : Type) (onUpload : UploadStep.File -> S -> S) (s : S),
             UploadStep.handleDrop onUpload (f :: rest) l s
             = (UploadStep.setDragOver false l, s)).
  { intros S onUpload s. unfold UploadStep.handleDrop. rewrite H. reflexivity. }
  split; [exact E|]. split; [apply E | reflexivity].
Qed.

(** A PDF followed by a PNG: the drop uploads nothing, the picker uploads
    the PDF. *)
Lemma drop_checks_the_type_witness :
  UploadStep.handleDrop Cases.logUpload [Cases.pdf; Cases.photo]
    UploadStep.initial []
  = (UploadStep.initial, [])
  /\ UploadStep.handleFileChange Cases.logUpload [Cases.pdf; Cases.photo]
       UploadStep.initial []
     = ({| UploadStep.dragOver := false;
           UploadStep.fileName := Some "receipt.pdf" |}, [Cases.pdf]).
Proof.
  destruct (drop_checks_the_type_and_the_picker_does_not
              Cases.pdf [Cases.photo] UploadStep.initial eq_refl)
    as (_ & Hd & Hp).
  split; [exact Hd | exact Hp].
Defined.

End Forms.

(** ** More about the page *)

Section PageInvariants.

Import Page Session.

Lemma idle_when_not_loading (c : Config) :
  consistent c -> loading (home c) = false -> inFlight c = [].
Proof.
  destruct c as [h fl]. unfold consistent. cbn [home inFlight].
  intros I L.
  destruct fl as [|[|? ? ?] [|? ?]]; try contradiction; try reflexivity;
    destruct I as [I _]; congruence.
Qed.

Lemma clarified_none (h : Home) : clarification h = None -> clarified h.
Proof. unfold clarified. intros ->. exact I. Qed.

Lemma no_clarification_unless_idle_review (h : Home) :
  clarified h -> (step h <> review \/ loading h = true) ->
  clarification h = None.
Proof.
  unfold clarified. destruct (clarification h); [|reflexivity].
  intros (Hs & Hl & _) [N|N]; [contradiction | congruence].
Qed.

Lemma no_error_unless_idle_upload (h : Home) :
  (error h = None \/ (step h = upload /\ loading h = false)) ->
  (step h <> upload \/ loading h = true) ->
  error h = None.
Proof.
  intros [E|[Hs Hl]] [N|N]; auto; [contradiction | congruence].
Qed.

Lemma tidy_start : tidy start.
Proof.
  repeat split; try exact consistent_start; cbn; auto.
  unfold MAX_INTERVIEW_ATTEMPTS. lia.
Qed.

(** Splits what is left of [tidy] once [consistent] is dealt with. *)
Ltac tidy_parts := split; [|split; [|split]].

Lemma dispatch_tidy (e : event) (c c' : Config) :
  tidy c -> dispatch e c = Some c' -> tidy c'.
Proof.
  intros (I & Hc & Ha & He & Hf) D.
  assert (I' : consistent c') by (eapply dispatch_consistent; eauto).
  split; [exact I'|]. clear I'.
  destruct e as [|text| | |i r].
  - (* pickFile *)
    unfold dispatch in D.
    destruct (rendersUploadStep (home c)) eqn:R; [|discriminate].
    injection D as <-. unfold rendersUploadStep in R.
    assert (Hs : step (home c) = upload)
      by (destruct (step (home c)); [reflexivity | discriminate..]).
    cbn [home inFlight].
    assert (Cn : clarification (home c) = None).
    { apply no_clarification_unless_idle_review; [exact Hc|].
      left. congruence. }
    tidy_parts.
    + apply clarified_none. exact Cn.
    + exact Ha.
    + left. reflexivity.
    + apply Forall_app. split; [exact Hf | repeat constructor].
  - (* clickSubmit *)
    unfold dispatch in D.
    destruct (rendersReviewStep (home c)
              && negb (ReviewStep.submitDisabled (loading (home c)) text))
      eqn:G; [|discriminate].
    injection D as <-.
    apply andb_true_iff in G. destruct G as [R G].
    unfold ReviewStep.submitDisabled in G.
    apply negb_true_iff, orb_false_iff in G. destruct G as [L T].
    apply negb_false_iff in T.
    rewrite (truthy_trim_idem _ T).
    unfold rendersReviewStep in R.
    assert (Hs : step (home c) = review)
      by (destruct (step (home c)); [discriminate | reflexivity | discriminate]).
    unfold onSubmit.
    destruct (state (home c)) as [s|] eqn:Hst;
      [|rewrite Hs in R; discriminate].
    cbn [home inFlight handleInterview_call].
    tidy_parts.
    + apply clarified_none. reflexivity.
    + exact Ha.
    + left. cbn.
      apply no_error_unless_idle_upload; [exact He|]. left. congruence.
    + apply Forall_app. split; [exact Hf|].
      constructor; [|constructor]. cbn. split; [exact T|].
      apply trim_idempotent.
  - (* clickCancel *)
    unfold dispatch in D.
    destruct (rendersReviewStep (home c)
              && negb (ReviewStep.cancelDisabled (loading (home c))));
      [|discriminate].
    injection D as <-. cbn [home inFlight].
    tidy_parts; cbn; auto. unfold MAX_INTERVIEW_ATTEMPTS. lia.
  - (* clickStartOver *)
    unfold dispatch in D.
    destruct (rendersResultsStep (home c)); [|discriminate].
    injection D as <-. cbn [home inFlight].
    tidy_parts; cbn; auto. unfold MAX_INTERVIEW_ATTEMPTS. lia.
  - (* settle *)
    destruct r as [res|res].
    + destruct (settle_upload _ _ _ _ I D) as (Hs & Hl & Hst & Hz & ->).
      assert (Cn : clarification (home c) = None).
      { apply no_clarification_unless_idle_review; [exact Hc|].
        right. exact Hl. }
      assert (En : error (home c) = None).
      { apply no_error_unless_idle_upload; [exact He|]. right. exact Hl. }
      cbn [home inFlight].
      destruct res as [res|err]; cbn [handleUpload_resume].
      * destruct (Gate.isReceiptTooPoor (UploadResponse.state res));
          unfold andThen; tidy_parts; cbn; auto;
          apply clarified_none; exact Cn.
      * unfold andThen; tidy_parts; cbn; auto.
        apply clarified_none. exact Cn.
    + destruct (settle_interview _ _ _ _ I D) as (Hs & Hl & Hlt & [s Hst] & ->).
      assert (Cn : clarification (home c) = None).
      { apply no_clarification_unless_idle_review; [exact Hc|].
        right. exact Hl. }
      assert (En : error (home c) = None).
      { apply no_error_unless_idle_upload; [exact He|]. left. congruence. }
      cbn [home inFlight].
      destruct (round_failed res) eqn:F.
      * rewrite (handleInterview_resume_failed _ _ _ F).
        destruct (Nat.leb_spec MAX_INTERVIEW_ATTEMPTS (attempts (home c) + 1))
          as [H|H].
        -- rewrite (handleFailedAttempt_exhausted _ _ _ H).
           tidy_parts; cbn; auto. unfold MAX_INTERVIEW_ATTEMPTS. lia.
        -- rewrite (handleFailedAttempt_retry _ _ _ H), retry_text.
           assert (Hr : step (received res (home c)) = review)
             by (destruct res; exact Hs).
           assert (Er : error (received res (home c)) = None)
             by (destruct res; exact En).
           tidy_parts; cbn; auto.
           unfold clarified. cbn.
           split; [exact Hr|]. split; [reflexivity|]. split; [lia|].
           eexists. reflexivity.
      * destruct (handleInterview_resume_succeeded
                    (attempts (home c)) res (home c) F)
          as (r & -> & Hcosts & ->).
        tidy_parts; cbn; auto.
        apply clarified_none. exact Cn.
Qed.

Lemma run_tidy (es : list event) :
  forall c c', tidy c -> run es c = Some c' -> tidy c'.
Proof.
  induction es as [|e es IH]; cbn [run]; intros c c' T R.
  - injection R as <-. exact T.
  - destruct (dispatch e c) as [c1|] eqn:D; [|discriminate].
    eapply IH; [|exact R]. eapply dispatch_tidy; eauto.
Qed.

Lemma reachable_tidy (c : Config) : reachable c -> tidy c.
Proof.
  intros [es R]. eapply run_tidy; [exact tidy_start | exact R].
Qed.

End PageInvariants.

Section PageFacts.

Import Page Session.

(** X6.  Requests never overlap: in every configuration the page can be
    in, at most one request is in flight, and [loading] is true exactly
    when one is. *)
Theorem at_most_one_request_in_flight :
  forall c,
    reachable c ->
    length (inFlight c) <= 1
    /\ (loading (home c) = true <-> inFlight c <> []).
Proof.
  intros c R. apply reachable_consistent in R.
  destruct c as [h fl]. unfold consistent in R. cbn [home inFlight] in *.
  destruct fl as [|[|? ? ?] [|? ?]]; try contradiction; cbn.
  - destruct R as [L _]. split; [lia|].
    split; [congruence | intros N; contradiction].
  - destruct R as [L _]. split; [lia|]. split; [discriminate | auto].
  - destruct R as [L _]. split; [lia|]. split; [discriminate | auto].
Qed.

Lemma at_most_one_request_witness :
  reachable (Sample.interviewing "Alice had the burger")
  /\ length (inFlight (Sample.interviewing "Alice had the burger")) <= 1.
Proof.
  split; [exact interviewing_reachable|].
  apply (at_most_one_request_in_flight _ interviewing_reachable).
Defined.

(** X7.  The main area is never blank and never shows two things: of the
    spinner, the upload form, the review form and the results, exactly one
    is rendered in every configuration the page can be in. *)
Theorem exactly_one_screen_is_rendered :
  forall c, reachable c -> shown (home c) = 1.
Proof.
  intros c R. apply reachable_consistent in R.
  destruct c as [[st ld er s cl a] fl]. unfold consistent in R.
  cbn [home inFlight step loading state attempts] in R.
  unfold shown, screens, rendersSpinner, rendersUploadStep,
    rendersReviewStep, rendersResultsStep.
  cbn [home step loading state].
  destruct fl as [|[|? ? ?] [|? ?]]; try contradiction.
  - destruct R as [-> R]. destruct st.
    + reflexivity.
    + destruct R as [N _]. destruct s; [reflexivity | contradiction].
    + destruct R as (s0 & -> & Hc). unfold has_final_costs in Hc.
      destruct (ReceiptState.final_costs s0); [reflexivity | discriminate].
  - destruct R as (-> & -> & _). reflexivity.
  - destruct R as (-> & -> & _ & _ & s0 & -> & _). reflexivity.
Qed.

Lemma exactly_one_screen_witness :
  screens (home (Sample.interviewing "Alice had the burger"))
  = [false; false; true; false]
  /\ shown (home (Sample.interviewing "Alice had the burger")) = 1.
Proof.
  split; [reflexivity|].
  apply (exactly_one_screen_is_rendered _ interviewing_reachable).
Defined.

(** X8.  A round that comes back with no question and at least one cost
    moves to Results, however many attempts were used before: the returned
    state is stored, the counter is left as it was, and no error or
    clarification is left over. *)
Theorem successful_round_shows_results :
  forall c c' i res,
    reachable c ->
    dispatch (settle i (interviewSettled res)) c = Some c' ->
    round_failed res = false ->
    exists r,
      res = JS.resolved r
      /\ c' = {| home := {| step := results; loading := false; error := None;
                            state := Some (InterviewResponse.state r);
                            clarification := None;
                            attempts := attempts (home c) |};
                 inFlight := [] |}
      /\ rendersResultsStep (home c') = true.
Proof.
  intros c c' i res R D F.
  apply reachable_tidy in R. destruct R as (I & Hc & _ & He & _).
  destruct (settle_interview _ _ _ _ I D) as (Hs & Hl & _ & _ & ->).
  destruct (handleInterview_resume_succeeded (attempts (home c)) res (home c) F)
    as (r & -> & Hcosts & E).
  exists r. split; [reflexivity|].
  rewrite E.
  assert (Cn : clarification (home c) = None).
  { apply no_clarification_unless_idle_review; [exact Hc|]. right. exact Hl. }
  assert (En : error (home c) = None).
  { apply no_error_unless_idle_upload; [exact He|]. left. congruence. }
  unfold rendersResultsStep, setLoading, setStep, setState. cbn. rewrite Cn, En.
  split; [reflexivity|].
  unfold has_final_costs in Hcosts.
  destruct (ReceiptState.final_costs (InterviewResponse.state r));
    [reflexivity | discriminate].
Qed.

Lemma successful_round_witness :
  round_failed Sample.done = false
  /\ exists r,
       Sample.done = JS.resolved r
       /\ Sample.showing_results
          = {| home := {| step := results; loading := false; error := None;
                          state := Some (InterviewResponse.state r);
                          clarification := None;
                          attempts :=
                            attempts
                              (home (Sample.interviewing
                                       "Alice had the burger")) |};
               inFlight := [] |}
       /\ rendersResultsStep (home Sample.showing_results) = true.
Proof.
  split; [reflexivity|].
  apply (successful_round_shows_results
           (Sample.interviewing "Alice had the burger")
           Sample.showing_results 0 Sample.done
           interviewing_reachable eq_refl eq_refl).
Defined.

(** X9.  An upload the gate accepts opens a clean session: the page is in
    Review holding the extracted state, with no error, no clarification,
    the counter at 0 and nothing in flight. *)
Theorem accepted_upload_opens_a_clean_review :
  forall c c' i res,
    reachable c ->
    dispatch (settle i (uploadSettled (JS.resolved res))) c = Some c' ->
    Gate.isReceiptTooPoor (UploadResponse.state res) = false ->
    c' = {| home := {| step := review; loading := false; error := None;
                       state := Some (UploadResponse.state res);
                       clarification := None; attempts := 0 |};
            inFlight := [] |}.
Proof.
  intros c c' i res R D G.
  apply reachable_tidy in R. destruct R as (I & Hc & _ & He & _).
  destruct (settle_upload _ _ _ _ I D) as (Hs & Hl & Hst & Hz & ->).
  assert (Cn : clarification (home c) = None).
  { apply no_clarification_unless_idle_review; [exact Hc|]. right. exact Hl. }
  assert (En : error (home c) = None).
  { apply no_error_unless_idle_upload; [exact He|]. right. exact Hl. }
  cbn [handleUpload_resume]. rewrite G.
  unfold andThen, setLoading, setStep, setState. cbn.
  rewrite Cn, En, Hz. reflexivity.
Qed.

Lemma accepted_upload_witness :
  Gate.isReceiptTooPoor Sample.extracted = false
  /\ Sample.reviewing Sample.extracted None 0
     = {| home := {| step := review; loading := false; error := None;
                     state := Some Sample.extracted;
                     clarification := None; attempts := 0 |};
          inFlight := [] |}.
Proof.
  assert (R : reachable Sample.uploading) by (exists [pickFile]; reflexivity).
  split; [reflexivity|].
  assert (D : dispatch (settle 0 (uploadSettled
                                    (JS.resolved
                                       (UploadResponse.mk "thread-1"
                                          Sample.extracted))))
                Sample.uploading
              = Some (Sample.reviewing Sample.extracted None 0))
    by reflexivity.
  exact (accepted_upload_opens_a_clean_review _ _ _ _ R D eq_refl).
Defined.

(** X10.  "Upload Different Receipt" is only available in Review while
    nothing is in flight, and it discards the session whatever has happened
    in it: the page is back in its initial configuration. *)
Theorem cancel_discards_the_session :
  forall c c',
    reachable c ->
    dispatch clickCancel c = Some c' ->
    step (home c) = review /\ loading (home c) = false /\ c' = start.
Proof.
  intros c c' R D. apply reachable_consistent in R.
  unfold dispatch in D.
  destruct (rendersReviewStep (home c)
            && negb (ReviewStep.cancelDisabled (loading (home c)))) eqn:G;
    [|discriminate].
  injection D as <-.
  apply andb_true_iff in G. destruct G as [Rv L].
  apply negb_true_iff in L. unfold ReviewStep.cancelDisabled in L.
  unfold rendersReviewStep in Rv.
  assert (Hs : step (home c) = review)
    by (destruct (step (home c)); [discriminate | reflexivity | discriminate]).
  rewrite (idle_when_not_loading _ R L).
  repeat split; assumption.
Qed.

Lemma cancel_discards_witness :
  dispatch clickCancel
    (Sample.reviewing
       (Sample.receipt Sample.two_items ["Who had the pizza?"] None)
       (Some ("Who had the pizza?" ++ JS.LF ++ JS.LF ++ "(Attempt 1 of 3)")%string)
       1)
  = Some start
  /\ loading
       (home (Sample.reviewing
                (Sample.receipt Sample.two_items ["Who had the pizza?"] None)
                (Some ("Who had the pizza?" ++ JS.LF ++ JS.LF
                       ++ "(Attempt 1 of 3)")%string) 1))
     = false.
Proof.
  assert (R : reachable
                (Sample.reviewing
                   (Sample.receipt Sample.two_items ["Who had the pizza?"] None)
                   (Some ("Who had the pizza?" ++ JS.LF ++ JS.LF
                          ++ "(Attempt 1 of 3)")%string) 1)).
  { eapply reachable_run; [exact interviewing_reachable|].
    instantiate (1 := [settle 0 (interviewSettled Sample.asks)]).
    reflexivity. }
  assert (D : dispatch clickCancel
                (Sample.reviewing
                   (Sample.receipt Sample.two_items ["Who had the pizza?"] None)
                   (Some ("Who had the pizza?" ++ JS.LF ++ JS.LF
                          ++ "(Attempt 1 of 3)")%string) 1)
              = Some start) by reflexivity.
  split; [exact D|].
  apply (cancel_discards_the_session _ _ R D).
Defined.

(** X11.  The counter never passes 2, and a clarification is only ever on
    screen in Review with nothing in flight, where it is some message,
    a blank line and "(Attempt k of 3)" with k the current count, 1 or 2:
    "(Attempt 3 of 3)" is never shown. *)
Theorem clarification_carries_the_current_count :
  forall c,
    reachable c ->
    attempts (home c) <= 2
    /\ (forall text,
          clarification (home c) = Some text ->
          step (home c) = review
          /\ loading (home c) = false
          /\ (attempts (home c) = 1 \/ attempts (home c) = 2)
          /\ exists message,
               text = (message ++ JS.LF ++ JS.LF ++ "(Attempt "
                       ++ JS.show_nat (attempts (home c)) ++ " of 3)")%string).
Proof.
  intros c R. apply reachable_tidy in R.
  destruct R as (_ & Hc & Ha & _). unfold MAX_INTERVIEW_ATTEMPTS in Ha.
  split; [lia|].
  intros text E. unfold clarified in Hc. rewrite E in Hc.
  destruct Hc as (Hs & Hl & H1 & message & ->).
  repeat split; auto; [lia|]. exists message. reflexivity.
Qed.

Lemma clarification_count_witness :
  reachable (Sample.interviewing "Alice had the burger")
  /\ attempts (home (Sample.interviewing "Alice had the burger")) <= 2.
Proof.
  split; [exact interviewing_reachable|].
  apply (clarification_carries_the_current_count _ interviewing_reachable).
Defined.

(** X12.  An error message is only ever stored while the upload form is on
    screen: in Review, in Results and while a request is in flight the
    error cell is empty. *)
Theorem errors_only_on_the_upload_form :
  forall c message,
    reachable c ->
    error (home c) = Some message ->
    rendersUploadStep (home c) = true /\ inFlight c = [].
Proof.
  intros c message R E. apply reachable_tidy in R.
  destruct R as (I & _ & _ & [He|[Hs Hl]] & _); [congruence|].
  split; [|apply idle_when_not_loading; assumption].
  unfold rendersUploadStep. rewrite Hs, Hl. reflexivity.
Qed.

Lemma errors_only_on_upload_witness :
  reachable Sample.turned_down
  /\ rendersUploadStep (home Sample.turned_down) = true.
Proof.
  assert (R : reachable Sample.turned_down).
  { exists [pickFile;
            settle 0 (uploadSettled (Sample.uploaded Sample.unreadable))].
    reflexivity. }
  split; [exact R|].
  apply (errors_only_on_the_upload_form _ POOR_RECEIPT R eq_refl).
Defined.

(** X13.  A suspended interview never works with stale values: the request
    in flight was sent for the thread of the state now stored, closed over
    the counter the page now shows, and carries a text that is not empty
    and has no white space at either end. *)
Theorem request_in_flight_matches_the_page :
  forall c threadId text a,
    reachable c ->
    In (inInterview threadId text a) (inFlight c) ->
    (exists s, state (home c) = Some s /\ ReceiptState.thread_id s = threadId)
    /\ a = attempts (home c)
    /\ text <> ""
    /\ JS.trim text = text.
Proof.
  intros c threadId text a R H. apply reachable_tidy in R.
  destruct R as (I & _ & _ & _ & Hf).
  rewrite Forall_forall in Hf. specialize (Hf _ H). cbn in Hf.
  destruct Hf as [T Tr].
  destruct c as [h fl]. unfold consistent in I. cbn [home inFlight] in *.
  destruct fl as [|[|t x a0] [|? ?]]; try contradiction.
  - destruct H as [H|[]]. discriminate.
  - destruct H as [H|[]]. injection H as -> -> ->.
    destruct I as (_ & _ & Ea & _ & s & Hs & Ht).
    repeat split; eauto.
    intros ->. discriminate.
Qed.

Lemma request_in_flight_witness :
  In (inInterview "thread-1" "Alice had the burger" 0)
     (inFlight (Sample.interviewing "Alice had the burger"))
  /\ JS.trim "Alice had the burger" = "Alice had the burger".
Proof.
  assert (H : In (inInterview "thread-1" "Alice had the burger" 0)
                 (inFlight (Sample.interviewing "Alice had the burger")))
    by (left; reflexivity).
  split; [exact H|].
  apply (request_in_flight_matches_the_page _ _ _ _ interviewing_reachable H).
Defined.

(** X14.  Results are never shown empty: whenever the results screen is
    rendered, the stored state has a list of final costs with at least one
    participant, so at least one card is drawn. *)
Theorem results_are_never_empty :
  forall c,
    reachable c ->
    rendersResultsStep (home c) = true ->
    exists s costs,
      state (home c) = Some s
      /\ ReceiptState.final_costs s = Some costs
      /\ costs <> []
      /\ 1 <= length (ResultsStep.cards
                        (ResultsStep.ResultsStep costs (ReceiptState.totals s))).
Proof.
  intros c R Rr. apply reachable_consistent in R.
  unfold rendersResultsStep in Rr.
  destruct (step (home c)) eqn:Hs; try discriminate.
  destruct c as [h fl]. unfold consistent in R. cbn [home inFlight] in *.
  destruct fl as [|[|? ? ?] [|? ?]]; try contradiction;
    try (destruct R as (_ & R & _); congruence).
  destruct R as (_ & R). rewrite Hs in R. destruct R as (s & Hst & Hc).
  unfold has_final_costs in Hc.
  destruct (ReceiptState.final_costs s) as [costs|] eqn:Hf; [|discriminate].
  exists s, costs. repeat split; auto.
  - intros ->. discriminate.
  - cbn. rewrite length_map. apply Nat.ltb_lt in Hc. lia.
Qed.

Lemma results_are_never_empty_witness :
  reachable Sample.showing_results
  /\ rendersResultsStep (home Sample.showing_results) = true
  /\ exists s costs,
       state (home Sample.showing_results) = Some s
       /\ ReceiptState.final_costs s = Some costs
       /\ costs <> [].
Proof.
  assert (R : reachable Sample.showing_results).
  { eapply reachable_run; [exact interviewing_reachable|].
    instantiate (1 := [settle 0 (interviewSettled Sample.done)]).
    reflexivity. }
  split; [exact R|]. split; [reflexivity|].
  destruct (results_are_never_empty _ R eq_refl) as (s & costs & H1 & H2 & H3 & _).
  exists s, costs. auto.
Defined.

End PageFacts.

(** ** Sessions and the API client *)

Section Sessions.

Import Page Session.

Lemma runInReview_run (es : list event) :
  forall c c', runInReview es c = Some c' -> run es c = Some c'.
Proof.
  induction es as [|e es IH]; cbn [runInReview run]; intros c c' H.
  - exact H.
  - destruct (dispatch e c) as [c1|]; [|discriminate].
    destruct (step (home c1)); try discriminate. apply IH, H.
Qed.

(** One event that leaves the page in Review adds one to the counter when
    it is an interview response and nothing otherwise. *)
Lemma step_in_review_counts (e : event) (c c' : Config) :
  consistent c -> step (home c) = review ->
  dispatch e c = Some c' -> step (home c') = review ->
  attempts (home c')
  = attempts (home c) + (if isInterviewResponse e then 1 else 0).
Proof.
  intros I Hs D Hs'.
  destruct e as [|text| | |i [res|res]]; cbn [isInterviewResponse].
  - unfold dispatch, rendersUploadStep in D. rewrite Hs in D. discriminate.
  - unfold dispatch in D.
    destruct (rendersReviewStep (home c)
              && negb (ReviewStep.submitDisabled (loading (home c)) text));
      [|discriminate].
    injection D as <-. unfold ReviewStep.handleSubmit, onSubmit.
    destruct (negb (JS.truthy (JS.trim text))); [lia|].
    destruct (state (home c)); cbn; lia.
  - unfold dispatch in D.
    destruct (rendersReviewStep (home c)
              && negb (ReviewStep.cancelDisabled (loading (home c))));
      [|discriminate].
    injection D as <-. cbn in Hs'. discriminate.
  - unfold dispatch, rendersResultsStep in D. rewrite Hs in D. discriminate.
  - destruct (settle_upload _ _ _ _ I D) as (Hu & _). congruence.
  - destruct (settle_interview _ _ _ _ I D) as (_ & _ & _ & _ & ->).
    cbn [home] in *.
    destruct (round_failed res) eqn:F.
    + rewrite (handleInterview_resume_failed _ _ _ F) in *.
      destruct (Nat.leb_spec MAX_INTERVIEW_ATTEMPTS (attempts (home c) + 1))
        as [H|H].
      * rewrite (handleFailedAttempt_exhausted _ _ _ H) in Hs'.
        cbn in Hs'. discriminate.
      * rewrite (handleFailedAttempt_retry _ _ _ H). reflexivity.
    + destruct (handleInterview_resume_succeeded
                  (attempts (home c)) res (home c) F) as (r & _ & _ & E).
      rewrite E in Hs'. cbn in Hs'. discriminate.
Qed.

Lemma runInReview_counts (es : list event) :
  forall c c',
    consistent c -> step (home c) = review ->
    runInReview es c = Some c' ->
    step (home c') = review
    /\ attempts (home c') = attempts (home c) + responses es.
Proof.
  unfold responses.
  induction es as [|e es IH]; cbn [runInReview filter]; intros c c' I Hs H.
  - injection H as <-. split; [exact Hs | cbn; lia].
  - destruct (dispatch e c) as [c1|] eqn:D; [|discriminate].
    destruct (step (home c1)) eqn:Hs1; try discriminate.
    assert (I1 : consistent c1) by (eapply dispatch_consistent; eauto).
    destruct (IH c1 c' I1 Hs1 H) as [Hs' Ha].
    split; [exact Hs'|].
    rewrite Ha, (step_in_review_counts e c c1 I Hs D Hs1).
    destruct (isInterviewResponse e); cbn [length]; lia.
Qed.

(** X15.  While the page stays in Review the counter is exactly the
    number of interview responses received since: every response that
    keeps the page in Review is a failed round and adds one, and nothing
    else changes it.  Hence a session never sees more than two responses
    without leaving Review; the third either shows results or resets. *)
Theorem counter_is_the_number_of_responses :
  forall c es c',
    reachable c ->
    step (home c) = review ->
    runInReview es c = Some c' ->
    attempts (home c') = attempts (home c) + responses es
    /\ attempts (home c) + responses es <= 2.
Proof.
  intros c es c' R Hs H.
  destruct (runInReview_counts es c c' (reachable_consistent _ R) Hs H)
    as [_ Ha].
  split; [exact Ha|].
  assert (R' : reachable c')
    by (eapply reachable_run; [exact R | apply runInReview_run, H]).
  apply reachable_tidy in R'. destruct R' as (_ & _ & Hlt & _).
  unfold MAX_INTERVIEW_ATTEMPTS in Hlt. lia.
Qed.

Lemma counter_is_the_number_of_responses_witness :
  responses (failedRound "Alice had the burger" Sample.asks
             ++ failedRound "and Bob the pizza" Sample.asks) = 2
  /\ attempts
       (home (Sample.reviewing
                (Sample.receipt Sample.two_items ["Who had the pizza?"] None)
                (Some ("Who had the pizza?" ++ JS.LF ++ JS.LF
                       ++ "(Attempt 2 of 3)")%string) 2))
     = attempts (home (Sample.reviewing Sample.extracted None 0))
       + responses (failedRound "Alice had the burger" Sample.asks
                    ++ failedRound "and Bob the pizza" Sample.asks).
Proof.
  split; [reflexivity|].
  assert (H : runInReview
                (failedRound "Alice had the burger" Sample.asks
                 ++ failedRound "and Bob the pizza" Sample.asks)
                (Sample.reviewing Sample.extracted None 0)
              = Some (Sample.reviewing
                        (Sample.receipt Sample.two_items
                           ["Who had the pizza?"] None)
                        (Some ("Who had the pizza?" ++ JS.LF ++ JS.LF
                               ++ "(Attempt 2 of 3)")%string) 2))
    by reflexivity.
  apply (counter_is_the_number_of_responses _ _ _
           reviewing_reachable eq_refl H).
Defined.

(** What the API client throws for a reply that is not a parsed 2xx
    answer. *)
Lemma submitInterview_rejects (reply : Api.Reply InterviewResponse.t) :
  (forall value, reply <> Api.okJson value) ->
  exists message,
    Api.submitInterview reply = JS.rejected (JS.ErrorObject message).
Proof.
  intros H. destruct reply as [m|status body|value|m]; cbn; eauto.
  exfalso. apply (H value). reflexivity.
Qed.

(** X16.  The upload, end to end.  Whatever the request comes to, the
    page stops loading with nothing in flight.  It moves to Review only
    for a parsed 2xx answer that passes the gate; otherwise it stays on
    Upload, stores nothing, and shows: the gate's message; or, for a
    non-2xx answer, the body's [detail] when the body is an object that
    has one and "Upload failed (<status>)" when it has none, is [null] or
    is not JSON; or the error's own message when the request or the
    parsing of a 2xx body failed. *)
Theorem upload_outcomes :
  forall c c' reply,
    reachable c ->
    dispatch (uploadReplied reply) c = Some c' ->
    inFlight c' = [] /\ loading (home c') = false
    /\ attempts (home c') = 0
    /\ match reply with
       | Api.okJson res =>
           if Gate.isReceiptTooPoor (UploadResponse.state res)
           then step (home c') = upload /\ state (home c') = None
                /\ error (home c') = Some POOR_RECEIPT
           else step (home c') = review
                /\ state (home c') = Some (UploadResponse.state res)
                /\ error (home c') = None
       | Api.notOk status (Api.jsonObject (Some detail)) =>
           step (home c') = upload /\ state (home c') = None
           /\ error (home c') = Some detail
       | Api.notOk status _ =>
           step (home c') = upload /\ state (home c') = None
           /\ error (home c')
              = Some ("Upload failed (" ++ JS.show_nat status ++ ")")%string
       | Api.fetchRejected message | Api.okNotJson message =>
           step (home c') = upload /\ state (home c') = None
           /\ error (home c') = Some message
       end.
Proof.
  intros c c' reply R D.
  apply reachable_tidy in R. destruct R as (I & _ & _ & He & _).
  unfold uploadReplied in D.
  destruct (settle_upload _ _ _ _ I D) as (Hs & Hl & Hst & Hz & ->).
  assert (En : error (home c) = None).
  { apply no_error_unless_idle_upload; [exact He|]. right. exact Hl. }
  cbn [home inFlight].
  destruct reply as [m|status [| |[d|]]|res|m];
    cbn [Api.uploadReceipt Api.detail Api.orElse handleUpload_resume];
    try (unfold andThen; cbn; rewrite Hs, Hst, Hz; repeat split; reflexivity).
  destruct (Gate.isReceiptTooPoor (UploadResponse.state res));
    unfold andThen; cbn; rewrite ?Hs, ?Hst, ?Hz, ?En; repeat split; reflexivity.
Qed.

Lemma upload_outcomes_witness :
  dispatch (uploadReplied (Api.notOk 413 Api.notJson)) Sample.uploading
  = Some {| home := setError (Some "Upload failed (413)") initial;
            inFlight := [] |}
  /\ error (home {| home := setError (Some "Upload failed (413)") initial;
                    inFlight := [] |})
     = Some ("Upload failed (" ++ JS.show_nat 413 ++ ")")%string.
Proof.
  assert (R : reachable Sample.uploading) by (exists [pickFile]; reflexivity).
  assert (D : dispatch (uploadReplied (Api.notOk 413 Api.notJson))
                Sample.uploading
              = Some {| home := setError (Some "Upload failed (413)") initial;
                        inFlight := [] |}) by reflexivity.
  split; [exact D|].
  destruct (upload_outcomes _ _ _ R D) as (_ & _ & _ & _ & _ & E).
  exact E.
Defined.

(** X17.  A request that fails is a failed round like any other.  When
    [submitInterview] throws (no response, a non-2xx answer, or a 2xx body
    that does not parse) with attempts to spare, the page stays in Review,
    keeps the receipt state it had, counts one attempt and shows
    "Error: <message>. Please try again." with the attempt note.  Three
    such failures in a row from a fresh Review use up the budget: the page
    is reset to Upload and the extracted receipt is gone. *)
Theorem failed_requests_count_as_attempts :
  (forall c c' reply message,
      reachable c ->
      dispatch (interviewReplied reply) c = Some c' ->
      Api.submitInterview reply = JS.rejected (JS.ErrorObject message) ->
      attempts (home c) + 1 < 3 ->
      step (home c') = review
      /\ state (home c') = state (home c)
      /\ attempts (home c') = attempts (home c) + 1
      /\ clarification (home c')
         = Some ("Error: " ++ message ++ ". Please try again."
                 ++ JS.LF ++ JS.LF ++ "(Attempt "
                 ++ JS.show_nat (attempts (home c) + 1) ++ " of 3)")%string)
  /\ (forall c t1 r1 t2 r2 t3 r3,
        reachable c ->
        step (home c) = review -> loading (home c) = false ->
        attempts (home c) = 0 ->
        JS.truthy (JS.trim t1) = true -> (forall v, r1 <> Api.okJson v) ->
        JS.truthy (JS.trim t2) = true -> (forall v, r2 <> Api.okJson v) ->
        JS.truthy (JS.trim t3) = true -> (forall v, r3 <> Api.okJson v) ->
        run (failedRound t1 (Api.submitInterview r1)
             ++ failedRound t2 (Api.submitInterview r2)
             ++ failedRound t3 (Api.submitInterview r3)) c
        = Some {| home := exhausted; inFlight := [] |}).
Proof.
  split.
  { intros c c' reply message R D E H.
    apply reachable_consistent in R. unfold interviewReplied in D.
    rewrite E in D.
    destruct (settle_interview _ _ _ _ R D) as (Hs & Hl & _ & _ & ->).
    cbn [home].
    rewrite (handleInterview_resume_failed _
               (JS.rejected (JS.ErrorObject message)) _ eq_refl).
    rewrite (handleFailedAttempt_retry _ _ _ H), retry_text. cbn.
    repeat split; auto.
    cbn. rewrite append_assoc. reflexivity. }
  intros c t1 r1 t2 r2 t3 r3 R Hs Hl Ha T1 N1 T2 N2 T3 N3.
  apply reachable_consistent in R.
  destruct (submitInterview_rejects r1 N1) as [m1 E1].
  destruct (submitInterview_rejects r2 N2) as [m2 E2].
  destruct (submitInterview_rejects r3 N3) as [m3 E3].
  rewrite E1, E2, E3.
  destruct (failedRound_run c t1 (JS.rejected (JS.ErrorObject m1))
              R Hs Hl T1 eq_refl)
    as (c1 & R1 & I1 & _ & L1 & _ & K1).
  destruct K1 as (S1 & _ & A1); [rewrite Ha; cbv; lia|].
  destruct (failedRound_run c1 t2 (JS.rejected (JS.ErrorObject m2))
              I1 S1 L1 T2 eq_refl)
    as (c2 & R2 & I2 & _ & L2 & _ & K2).
  destruct K2 as (S2 & _ & A2); [rewrite A1, Ha; cbv; lia|].
  destruct (failedRound_run c2 t3 (JS.rejected (JS.ErrorObject m3))
              I2 S2 L2 T3 eq_refl)
    as (c3 & R3 & _ & N3' & _ & K3 & _).
  rewrite run_app, R1, run_app, R2, R3.
  destruct c3 as [h3 f3]. cbn in *. subst f3.
  rewrite K3; [reflexivity|]. rewrite A2, A1, Ha. cbv. lia.
Qed.

Lemma failed_requests_witness :
  run (failedRound "Alice had the burger"
         (Api.submitInterview (Api.fetchRejected "Failed to fetch"))
       ++ failedRound "Alice had the burger"
            (Api.submitInterview (Api.notOk 502 Api.notJson))
       ++ failedRound "Alice had the burger"
            (Api.submitInterview
               (Api.notOk 500 (Api.jsonObject (Some "Internal error")))))
      (Sample.reviewing Sample.extracted None 0)
  = Some {| home := exhausted; inFlight := [] |}.
Proof.
  apply (proj2 failed_requests_count_as_attempts);
    try reflexivity; try discriminate.
  exact reviewing_reachable.
Defined.

End Sessions.

(** ** Amounts that are not numbers *)

Section NotANumber.

Import ResultsStep.
Local Open Scope float_scope.

Lemma SFcompare_refl (f : spec_float) :
  f <> S754_nan -> SFcompare f f = Some Eq.
Proof.
  destruct f as [s|s| |s m e]; cbn; intros H.
  - reflexivity.
  - destruct s; reflexivity.
  - contradiction.
  - rewrite Z.compare_refl, Pos.compare_cont_refl. destruct s; reflexivity.
Qed.

(** [is_nan] in terms of the specification of binary64. *)
Lemma is_nan_spec (x : float) :
  is_nan x = true <-> Prim2SF x = S754_nan.
Proof.
  unfold is_nan. rewrite eqb_spec. unfold SFeqb. split.
  - intros H. destruct (Prim2SF x) eqn:E; try reflexivity;
      rewrite SFcompare_refl in H by discriminate; discriminate.
  - intros ->. reflexivity.
Qed.

Lemma add_nan_l (x y : float) : is_nan x = true -> is_nan (x + y) = true.
Proof.
  rewrite !is_nan_spec, add_spec. intros ->. reflexivity.
Qed.

Lemma add_nan_r (x y : float) : is_nan y = true -> is_nan (x + y) = true.
Proof.
  rewrite !is_nan_spec, add_spec. intros ->.
  unfold SF64add, SFadd. destruct (Prim2SF x); reflexivity.
Qed.

Lemma sub_nan_l (x y : float) : is_nan x = true -> is_nan (x - y) = true.
Proof.
  rewrite !is_nan_spec, sub_spec. intros ->. reflexivity.
Qed.

Lemma sub_nan_r (x y : float) : is_nan y = true -> is_nan (x - y) = true.
Proof.
  rewrite !is_nan_spec, sub_spec. intros ->.
  unfold SF64sub, SFsub. destruct (Prim2SF x); reflexivity.
Qed.

Lemma abs_nan (x : float) : is_nan x = true -> is_nan (abs x) = true.
Proof.
  rewrite !is_nan_spec, abs_spec. intros ->. reflexivity.
Qed.

Lemma ltb_nan (x y : float) : is_nan x = true -> (x <? y) = false.
Proof.
  rewrite is_nan_spec, ltb_spec. intros ->. reflexivity.
Qed.

Lemma sum_stays_nan (costs : list ParticipantCost.t) :
  forall sum,
    is_nan sum = true ->
    is_nan (fold_left
              (fun sum c => sum + JS.parseFloat (ParticipantCost.total_owed c))
              costs sum) = true.
Proof.
  induction costs as [|c costs IH]; cbn [fold_left]; intros sum H.
  - exact H.
  - apply IH, add_nan_l, H.
Qed.

Lemma sum_becomes_nan (costs : list ParticipantCost.t) :
  Exists (fun c => is_nan (JS.parseFloat (ParticipantCost.total_owed c)) = true)
         costs ->
  forall sum,
    is_nan (fold_left
              (fun sum c => sum + JS.parseFloat (ParticipantCost.total_owed c))
              costs sum) = true.
Proof.
  induction 1 as [c costs H|c costs H IH]; cbn [fold_left]; intros sum.
  - apply sum_stays_nan, add_nan_r, H.
  - apply IH.
Qed.

(** X18.  An amount that does not parse is never passed over in silence.
    If some participant's [total_owed], or the receipt's [grand_total], is
    not a number, the sum or the difference is not a number either, the
    strict comparison with 0.06 fails, and the row reports that the totals
    differ; the cards are shown all the same. *)
Theorem unparsable_amount_is_reported :
  forall costs totals,
    Exists (fun c => is_nan (JS.parseFloat (ParticipantCost.total_owed c)) = true)
           costs
    \/ is_nan (JS.parseFloat (Totals.grand_total totals)) = true ->
    is_nan (discrepancy costs totals) = true
    /\ validation (ResultsStep costs (Some totals))
       = Some (TotalsDiffer (discrepancy costs totals))
    /\ length (cards (ResultsStep costs (Some totals))) = length costs.
Proof.
  intros costs totals H.
  assert (N : is_nan (discrepancy costs totals) = true).
  { unfold discrepancy. apply abs_nan. destruct H as [H|H].
    - apply sub_nan_l. unfold grandTotal. apply sum_becomes_nan, H.
    - apply sub_nan_r, H. }
  split; [exact N|]. split; [|apply length_map].
  unfold ResultsStep. cbn [validation dollars].
  fold (discrepancy costs totals).
  rewrite (ltb_nan _ _ N). reflexivity.
Qed.

Lemma unparsable_amount_witness :
  validation
    (ResultsStep [Sample.owes "Alice" "15.36"; Sample.owes "Bob" "n/a"]
                 (Some Sample.totals))
  <> Some TotalsMatch.
Proof.
  destruct (unparsable_amount_is_reported
              [Sample.owes "Alice" "15.36"; Sample.owes "Bob" "n/a"]
              Sample.totals) as (_ & E & _).
  - left. right. left. reflexivity.
  - rewrite E. discriminate.
Defined.

End NotANumber.

(** ** More about the stored rows *)

Section StoredRows.

Import Schema Integrity.
Local Open Scope Z_scope.

(** Peels the successful steps off a chain of [bind]s. *)
Ltac binds H :=
  repeat match type of H with
         | bind ?r _ = inr _ =>
             let E := fresh "E" in
             destruct r eqn:E; cbn [bind] in H; [discriminate|]
         end.

Lemma session_invariant (P : database -> Prop) :
  P created ->
  (forall e s d d', P d -> execute e s d = inr d' -> P d') ->
  forall ss, P (session ss created).
Proof.
  intros H0 Hstep ss.
  assert (G : forall d, P d -> P (session ss d)).
  { induction ss as [|[e s] ss IH]; intros d Hd; cbn [session].
    - exact Hd.
    - destruct (execute e s d) as [err|d'] eqn:E.
      + apply IH, Hd.
      + apply IH. eapply Hstep; eauto. }
  apply G, H0.
Qed.

Lemma NoDup_snoc {A : Type} (xs : list A) (x : A) :
  NoDup xs -> ~ In x xs -> NoDup (xs ++ [x]).
Proof.
  intros H N. induction H as [|y ys Hy Hys IH]; cbn.
  - constructor; [intros [] | constructor].
  - constructor.
    + rewrite in_app_iff. intros [H1|[H1|[]]]; [contradiction|].
      subst. apply N. left. reflexivity.
    + apply IH. intros H1. apply N. right. exact H1.
Qed.

Lemma NoDup_map_filter {A B : Type} (f : A -> B) (keep : A -> bool)
  (xs : list A) :
  NoDup (map f xs) -> NoDup (map f (filter keep xs)).
Proof.
  induction xs as [|x xs IH]; cbn [map filter]; intros H.
  - constructor.
  - inversion H as [|? ? Hx Hxs]; subst.
    destruct (keep x); cbn [map]; [|apply IH, Hxs].
    constructor; [|apply IH, Hxs].
    intros Hin. apply Hx. apply in_map_iff in Hin.
    destruct Hin as (y & Hy & Hin). apply filter_In in Hin.
    apply in_map_iff. exists y. tauto.
Qed.

Lemma UNIQUE_free (constraint : string) (taken : bool) (u : unit) :
  UNIQUE constraint taken = inr u -> taken = false.
Proof. unfold UNIQUE. destruct taken; [discriminate | reflexivity]. Qed.

Lemma REFERENCES_found (constraint : string) (found : bool) (u : unit) :
  REFERENCES constraint found = inr u -> found = true.
Proof. unfold REFERENCES. destruct found; [reflexivity | discriminate]. Qed.

Lemma existsb_key {A K : Type} (eqb : K -> K -> bool) (key : A -> K)
  (rows : list A) (k : K) :
  (forall a b, eqb a b = true <-> a = b) ->
  existsb (fun r => eqb (key r) k) rows = true <-> In k (map key rows).
Proof.
  intros Heq. rewrite existsb_exists, in_map_iff.
  split; intros (r & H1 & H2); exists r.
  - apply Heq in H2. auto.
  - split; [exact H2 | apply Heq; exact H1].
Qed.

Lemma has_receipt_spec (d : database) (id : string) :
  has_receipt d id = true <-> In id (receipts_pkey d).
Proof. apply (existsb_key String.eqb receipts.id), String.eqb_eq. Qed.

Lemma has_participant_spec (d : database) (id : uuid) :
  has_participant d id = true <-> In id (participants_pkey d).
Proof. apply (existsb_key Z.eqb participants.id), Z.eqb_eq. Qed.

Lemma has_item_spec (d : database) (id : uuid) :
  has_item d id = true <-> In id (receipt_items_pkey d).
Proof. apply (existsb_key Z.eqb receipt_items.id), Z.eqb_eq. Qed.

Lemma not_taken {A : Type} (P : A -> Prop) (b : bool) :
  forall x, (b = true <-> P x) -> b = false -> ~ P x.
Proof. intros x H E HP. apply H in HP. congruence. Qed.

(** [update_where] with a row function that keeps a key keeps the keys. *)
Lemma update_where_keys {R K : Type} (key : R -> K)
  (cond : R -> bool) (f : R -> result R) :
  (forall r r', f r = inr r' -> key r' = key r) ->
  forall rows rows',
    update_where cond f rows = inr rows' -> map key rows' = map key rows.
Proof.
  intros Hf. induction rows as [|r rows IH]; cbn [update_where]; intros rows' H.
  - injection H as <-. reflexivity.
  - binds H. injection H as <-. cbn [map]. f_equal.
    + destruct (cond r); [eapply Hf; eassumption | congruence].
    + apply IH. reflexivity.
Qed.

Lemma update_where_carries {R : Type} (P : R -> Prop)
  (cond : R -> bool) (f : R -> result R) :
  (forall r r', P r -> f r = inr r' -> P r') ->
  forall rows rows',
    Forall P rows -> update_where cond f rows = inr rows' -> Forall P rows'.
Proof.
  intros Hf. induction rows as [|r rows IH]; cbn [update_where]; intros rows' HP H.
  - injection H as <-. constructor.
  - inversion HP as [|? ? Hr Hrows]; subst.
    binds H. injection H as <-.
    constructor.
    + destruct (cond r); [eapply Hf; eassumption | congruence].
    + apply IH; auto.
Qed.

Lemma update_receipts_row_id (s : receipts_set) (r r' : receipts.row) :
  update_receipts_row s r = inr r' -> receipts.id r' = receipts.id r.
Proof.
  unfold update_receipts_row. intros H. binds H. injection H as <-. reflexivity.
Qed.

Lemma update_assignments_row_key (v : offered Z) (r r' : assignments.row) :
  update_assignments_row v r = inr r' ->
  (assignments.item_id r', assignments.participant_id r')
  = (assignments.item_id r, assignments.participant_id r).
Proof.
  unfold update_assignments_row. intros H. binds H. injection H as <-.
  reflexivity.
Qed.

Lemma execute_keeps_keys_unique (e : env) (s : statement) (d d' : database) :
  keys_unique d -> execute e s d = inr d' -> keys_unique d'.
Proof.
  unfold keys_unique, receipts_pkey, participants_pkey,
    participants_unique_per_receipt, receipt_items_pkey, assignments_pkey.
  intros (K1 & K2 & K3 & K4 & K5) H.
  destruct s as [v|v|v|v|id s|i p v|id]; cbn [execute] in H.
  - unfold insert_receipts in H. binds H. injection H as <-.
    cbn [t_receipts t_participants t_receipt_items t_assignments].
    repeat split; auto. rewrite map_app. apply NoDup_snoc; [exact K1|].
    cbn [map receipts.id].
    match goal with
    | U : UNIQUE "receipts_pkey" _ = inr _ |- _ =>
        apply UNIQUE_free in U;
        apply (not_taken _ _ _ (has_receipt_spec d _) U)
    end.
  - unfold insert_participants in H. binds H. injection H as <-.
    cbn [t_receipts t_participants t_receipt_items t_assignments].
    repeat split; auto; rewrite map_app; apply NoDup_snoc; auto; cbn [map].
    + match goal with
      | U : UNIQUE "participants_pkey" _ = inr _ |- _ =>
          apply UNIQUE_free in U;
          apply (not_taken _ _ _ (has_participant_spec d _) U)
      end.
    + match goal with
      | U : UNIQUE "participants_unique_per_receipt" _ = inr _ |- _ =>
          apply UNIQUE_free in U; intros Hin; apply in_map_iff in Hin;
          destruct Hin as (r & Hr & Hin);
          assert (X : existsb
                        (fun r0 => String.eqb (participants.receipt_id r0) s
                                   && String.eqb (participants.name r0) s0)
                        (t_participants d) = true)
            by (apply existsb_exists; exists r; split; [exact Hin|];
                injection Hr as -> ->; rewrite !String.eqb_refl; reflexivity);
          congruence
      end.
  - unfold insert_receipt_items in H. binds H. injection H as <-.
    cbn [t_receipts t_participants t_receipt_items t_assignments].
    repeat split; auto. rewrite map_app. apply NoDup_snoc; [exact K4|].
    cbn [map receipt_items.id].
    match goal with
    | U : UNIQUE "receipt_items_pkey" _ = inr _ |- _ =>
        apply UNIQUE_free in U;
        apply (not_taken _ _ _ (has_item_spec d _) U)
    end.
  - unfold insert_assignments in H. binds H. injection H as <-.
    cbn [t_receipts t_participants t_receipt_items t_assignments].
    repeat split; auto. rewrite map_app. apply NoDup_snoc; [exact K5|].
    cbn [map assignments.item_id assignments.participant_id].
    match goal with
    | U : UNIQUE "assignments_pkey" _ = inr _ |- _ =>
        apply UNIQUE_free in U; intros Hin; apply in_map_iff in Hin;
        destruct Hin as (r & Hr & Hin);
        assert (X : existsb
                      (fun r0 => (assignments.item_id r0 =? u)
                                 && (assignments.participant_id r0 =? u0))
                      (t_assignments d) = true)
          by (apply existsb_exists; exists r; split; [exact Hin|];
              injection Hr as -> ->; rewrite !Z.eqb_refl; reflexivity);
        congruence
    end.
  - unfold update_receipts in H. binds H. injection H as <-.
    cbn [t_receipts t_participants t_receipt_items t_assignments].
    repeat split; auto.
    erewrite update_where_keys; [exact K1| |eassumption].
    apply update_receipts_row_id.
  - unfold update_assignments in H. binds H. injection H as <-.
    cbn [t_receipts t_participants t_receipt_items t_assignments].
    repeat split; auto.
    erewrite (update_where_keys
                (fun r => (assignments.item_id r, assignments.participant_id r)));
      [exact K5| |eassumption].
    apply update_assignments_row_key.
  - injection H as <-. unfold delete_receipts.
    cbn [t_receipts t_participants t_receipt_items t_assignments].
    repeat split; apply NoDup_map_filter; assumption.
Qed.

(** X19.  Keys stay unique.  Whatever statements have run, no two
    receipts share an id, no two participants share an id or a name
    within one receipt, no two items share an id, and an item is assigned
    to a participant at most once. *)
Theorem keys_stay_unique :
  forall ss,
    let d := session ss created in
    NoDup (map receipts.id (t_receipts d))
    /\ NoDup (map participants.id (t_participants d))
    /\ NoDup (map (fun r => (participants.receipt_id r, participants.name r))
                  (t_participants d))
    /\ NoDup (map receipt_items.id (t_receipt_items d))
    /\ NoDup (map (fun r => (assignments.item_id r, assignments.participant_id r))
                  (t_assignments d)).
Proof.
  intros ss.
  apply (session_invariant keys_unique).
  - repeat split; constructor.
  - apply execute_keeps_keys_unique.
Qed.

Lemma Forall_snoc {A : Type} (P : A -> Prop) (xs : list A) (x : A) :
  Forall P xs -> P x -> Forall P (xs ++ [x]).
Proof. intros H Hx. apply Forall_app. split; [exact H | repeat constructor; exact Hx]. Qed.

Lemma Forall_weaken {A : Type} (P Q : A -> Prop) (xs : list A) :
  (forall x, P x -> Q x) -> Forall P xs -> Forall Q xs.
Proof. intros H F. eapply Forall_impl; eauto. Qed.

Lemma Forall_filter_with {A : Type} (P Q : A -> Prop) (keep : A -> bool)
  (xs : list A) :
  (forall x, P x -> keep x = true -> Q x) ->
  Forall P xs -> Forall Q (filter keep xs).
Proof.
  intros H F. apply Forall_forall. intros x Hx.
  apply filter_In in Hx. destruct Hx as [Hx Hk].
  rewrite Forall_forall in F. auto.
Qed.

Lemma execute_keeps_references (e : env) (s : statement) (d d' : database) :
  references_hold d -> execute e s d = inr d' -> references_hold d'.
Proof.
  unfold references_hold, receipts_pkey, participants_pkey, receipt_items_pkey.
  intros (F1 & F2 & F3) H.
  destruct s as [v|v|v|v|id s|i p v|id]; cbn [execute] in H.
  - unfold insert_receipts in H. binds H. injection H as <-.
    cbn [t_receipts t_participants t_receipt_items t_assignments].
    rewrite map_app.
    repeat split; auto;
      (eapply Forall_weaken; [|eassumption]); cbn beta;
      intros r Hr; apply in_or_app; left; exact Hr.
  - unfold insert_participants in H. binds H. injection H as <-.
    cbn [t_receipts t_participants t_receipt_items t_assignments].
    rewrite map_app.
    split; [|split; [exact F2|]].
    + apply Forall_snoc; [exact F1|]. cbn.
      match goal with
      | U : REFERENCES "participants_receipt_id_fkey" _ = inr _ |- _ =>
          apply REFERENCES_found in U; apply has_receipt_spec in U; exact U
      end.
    + eapply Forall_weaken; [|exact F3]. cbn beta.
      intros r [Hi Hp]. split; [exact Hi|]. apply in_or_app. left. exact Hp.
  - unfold insert_receipt_items in H. binds H. injection H as <-.
    cbn [t_receipts t_participants t_receipt_items t_assignments].
    rewrite map_app.
    split; [exact F1|]. split.
    + apply Forall_snoc; [exact F2|]. cbn.
      match goal with
      | U : REFERENCES "receipt_items_receipt_id_fkey" _ = inr _ |- _ =>
          apply REFERENCES_found in U; apply has_receipt_spec in U; exact U
      end.
    + eapply Forall_weaken; [|exact F3]. cbn beta.
      intros r [Hi Hp]. split; [|exact Hp]. apply in_or_app. left. exact Hi.
  - unfold insert_assignments in H. binds H. injection H as <-.
    cbn [t_receipts t_participants t_receipt_items t_assignments].
    split; [exact F1|]. split; [exact F2|].
    apply Forall_snoc; [exact F3|]. cbn.
    split.
    + match goal with
      | U : REFERENCES "assignments_item_id_fkey" _ = inr _ |- _ =>
          apply REFERENCES_found in U; apply has_item_spec in U; exact U
      end.
    + match goal with
      | U : REFERENCES "assignments_participant_id_fkey" _ = inr _ |- _ =>
          apply REFERENCES_found in U; apply has_participant_spec in U; exact U
      end.
  - unfold update_receipts in H. binds H. injection H as <-.
    cbn [t_receipts t_participants t_receipt_items t_assignments].
    erewrite (update_where_keys receipts.id); [|apply update_receipts_row_id|eassumption].
    repeat split; assumption.
  - unfold update_assignments in H. binds H. injection H as <-.
    cbn [t_receipts t_participants t_receipt_items t_assignments].
    split; [exact F1|]. split; [exact F2|].
    eapply update_where_carries; [|exact F3|eassumption].
    cbn beta. intros r r' Hr Hu.
    apply update_assignments_row_key in Hu. injection Hu as -> ->. exact Hr.
  - injection H as <-. unfold delete_receipts.
    cbn [t_receipts t_participants t_receipt_items t_assignments].
    split; [|split].
    + eapply Forall_filter_with; [|exact F1]. cbn beta.
      intros r Hr Hk. apply in_map_iff in Hr. destruct Hr as (x & Hx & Hin).
      apply in_map_iff. exists x. split; [exact Hx|].
      apply filter_In. split; [exact Hin|]. rewrite Hx. exact Hk.
    + eapply Forall_filter_with; [|exact F2]. cbn beta.
      intros r Hr Hk. apply in_map_iff in Hr. destruct Hr as (x & Hx & Hin).
      apply in_map_iff. exists x. split; [exact Hx|].
      apply filter_In. split; [exact Hin|]. rewrite Hx. exact Hk.
    + eapply Forall_filter_with; [|exact F3]. cbn beta.
      intros a _ Hk. apply andb_true_iff in Hk. destruct Hk as [Hi Hp].
      split.
      * apply (existsb_key Z.eqb receipt_items.id) in Hi; [exact Hi|].
        apply Z.eqb_eq.
      * apply (existsb_key Z.eqb participants.id) in Hp; [exact Hp|].
        apply Z.eqb_eq.
Qed.

(** X20.  References never dangle.  Whatever statements have run, every
    participant and every item belongs to a stored receipt, and every
    assignment joins a stored item to a stored participant: the foreign
    keys refuse rows that point nowhere, and deleting a receipt takes its
    participants, items and their assignments with it. *)
Theorem references_never_dangle :
  forall ss,
    let d := session ss created in
    (forall r, In r (t_participants d) ->
               In (participants.receipt_id r) (map receipts.id (t_receipts d)))
    /\ (forall r, In r (t_receipt_items d) ->
                  In (receipt_items.receipt_id r)
                     (map receipts.id (t_receipts d)))
    /\ (forall r, In r (t_assignments d) ->
                  In (assignments.item_id r)
                     (map receipt_items.id (t_receipt_items d))
                  /\ In (assignments.participant_id r)
                        (map participants.id (t_participants d))).
Proof.
  intros ss d.
  assert (H : references_hold d).
  { apply (session_invariant references_hold).
    - repeat split; constructor.
    - apply execute_keeps_references. }
  destruct H as (F1 & F2 & F3).
  rewrite Forall_forall in F1, F2, F3. auto.
Qed.

Lemma same_key_same_row {A K : Type} (key : A -> K) (rows : list A) :
  NoDup (map key rows) ->
  forall x y, In x rows -> In y rows -> key x = key y -> x = y.
Proof.
  induction rows as [|r rows IH]; cbn [map]; intros N x y Hx Hy E.
  - destruct Hx.
  - inversion N as [|? ? Hr Hrows]; subst.
    destruct Hx as [->|Hx], Hy as [->|Hy].
    + reflexivity.
    + exfalso. apply Hr. rewrite E. apply in_map, Hy.
    + exfalso. apply Hr. rewrite <- E. apply in_map, Hx.
    + apply IH; assumption.
Qed.

(** X22.  What a cascading delete takes.  On tables that any sequence of
    statements has produced, [DELETE FROM receipts WHERE id = ...] removes
    exactly the receipt with that id, the participants and the items whose
    [receipt_id] is that id, and the assignments whose item or whose
    participant is among those removed: an assignment is still there
    afterwards exactly when it was there before and neither its item nor
    its participant belongs to the deleted receipt. *)
Theorem delete_cascades_to_exactly_the_receipt :
  forall ss id,
    let d := session ss created in
    let d' := delete_receipts id d in
    (forall r, In r (t_receipts d')
               <-> In r (t_receipts d) /\ receipts.id r <> id)
    /\ (forall r, In r (t_participants d')
                  <-> In r (t_participants d)
                      /\ participants.receipt_id r <> id)
    /\ (forall r, In r (t_receipt_items d')
                  <-> In r (t_receipt_items d)
                      /\ receipt_items.receipt_id r <> id)
    /\ (forall a, In a (t_assignments d')
                  <-> In a (t_assignments d)
                      /\ (forall it, In it (t_receipt_items d) ->
                                     receipt_items.id it = assignments.item_id a ->
                                     receipt_items.receipt_id it <> id)
                      /\ (forall p, In p (t_participants d) ->
                                    participants.id p
                                    = assignments.participant_id a ->
                                    participants.receipt_id p <> id)).
Proof.
  intros ss id d d'.
  assert (K : keys_unique d).
  { apply (session_invariant keys_unique).
    - repeat split; constructor.
    - apply execute_keeps_keys_unique. }
  assert (F : references_hold d).
  { apply (session_invariant references_hold).
    - repeat split; constructor.
    - apply execute_keeps_references. }
  destruct K as (_ & K2 & _ & K4 & _). destruct F as (_ & _ & F3).
  unfold participants_pkey in K2. unfold receipt_items_pkey in K4.
  assert (Hne : forall a : string,
             negb (String.eqb a id) = true <-> a <> id).
  { intros a. rewrite negb_true_iff. apply String.eqb_neq. }
  unfold d', delete_receipts.
  cbn [t_receipts t_participants t_receipt_items t_assignments].
  split; [intros r; rewrite filter_In, Hne; reflexivity|].
  split; [intros r; rewrite filter_In, Hne; reflexivity|].
  split; [intros r; rewrite filter_In, Hne; reflexivity|].
  intros a. rewrite filter_In, andb_true_iff, !existsb_exists.
  split.
  - intros (Ha & (it0 & Hit0 & Ei) & (p0 & Hp0 & Ep)).
    apply filter_In in Hit0. destruct Hit0 as [Hit0 Ni]. apply Hne in Ni.
    apply filter_In in Hp0. destruct Hp0 as [Hp0 Np]. apply Hne in Np.
    apply Z.eqb_eq in Ei. apply Z.eqb_eq in Ep.
    split; [exact Ha|]. split.
    + intros it Hit E.
      rewrite (same_key_same_row receipt_items.id _ K4 it it0 Hit Hit0);
        [exact Ni | congruence].
    + intros p Hp E.
      rewrite (same_key_same_row participants.id _ K2 p p0 Hp Hp0);
        [exact Np | congruence].
  - intros (Ha & Hi & Hp).
    rewrite Forall_forall in F3. destruct (F3 a Ha) as [Ri Rp].
    unfold receipt_items_pkey in Ri. unfold participants_pkey in Rp.
    apply in_map_iff in Ri. destruct Ri as (it & Ei & Hit).
    apply in_map_iff in Rp. destruct Rp as (p & Ep & Hpin).
    split; [exact Ha|]. split.
    + exists it. split; [|apply Z.eqb_eq; exact Ei].
      apply filter_In. split; [exact Hit|]. apply Hne. apply Hi; assumption.
    + exists p. split; [|apply Z.eqb_eq; exact Ep].
      apply filter_In. split; [exact Hpin|]. apply Hne. apply Hp; assumption.
Qed.

End StoredRows.

(** ** The third failed round *)

Section ThirdRound.

Import Page.

(** C9 as stated fails on the third failed attempt.  In a session with
    two attempts used, a response that carries both questions and costs
    leaves the page on Upload with the counter at 0 and no clarification:
    the counter is not one more than it was and nothing is surfaced. *)
Lemma C9_third_failure_counterexample :
  run Cases.asked_twice start = Some Cases.third_round
  /\ attempts (home Cases.third_round) = 2
  /\ dispatch (settle 0 (interviewSettled Sample.asks_with_costs))
       Cases.third_round
     = Some {| home := exhausted; inFlight := [] |}
  /\ step exhausted = upload
  /\ attempts exhausted = 0
  /\ attempts exhausted <> attempts (home Cases.third_round) + 1
  /\ clarification exhausted = None.
Proof.
  repeat split; try reflexivity. discriminate.
Qed.

End ThirdRound.
